(** * midserve: the file-serving request handler

    A shallow embedding of the file server of midserve (a copy of Go's
    [net/http.FileServer]) and of the Go library functions it calls,
    followed by the properties of the handler.

    Conventions.  A Go [string] is a [string] (a sequence of bytes, [ascii]);
    byte loops run over [list ascii].  The Go packages [strings], [path],
    [time], [url], [os] and [http] are modules of the same name holding the
    functions the handler uses.  The three library entry points that are not
    re-implemented ([http.ParseTime], [http.ServeContent], [sort.Slice]) are
    the variables of the section [FileServer]. *)

From Stdlib Require Import ZArith List Ascii String Bool Lia.
From Stdlib Require Import Sorting.Sorted Sorting.Permutation.
From stdpp Require Import gmap strings sorting.

Local Open Scope string_scope.
Local Open Scope list_scope.

#[local] Arguments String.append !s1 s2 : simpl nomatch.

(** ** Bytes and strings *)

Definition bytes (s : string) : list ascii := list_ascii_of_string s.
Definition str (l : list ascii) : string := string_of_list_ascii l.

Definition slash : ascii := "/"%char.
Definition dot : ascii := "."%char.

(** [s[len(s)-1]], where it exists. *)
Definition lastByte (s : string) : option ascii :=
  String.get (String.length s - 1) s.

Module strings.

(** [len(s) >= len(prefix) && s[:len(prefix)] == prefix] *)
Definition HasPrefix (s prefix : string) : bool :=
  (String.length prefix <=? String.length s)%nat
  && String.eqb (substring 0 (String.length prefix) s) prefix.

(** [len(s) >= len(suffix) && s[len(s)-len(suffix):] == suffix] *)
Definition HasSuffix (s suffix : string) : bool :=
  (String.length suffix <=? String.length s)%nat
  && String.eqb
       (substring (String.length s - String.length suffix)
                  (String.length suffix) s)
       suffix.

(** [if HasSuffix(s, suffix) { return s[:len(s)-len(suffix)] }; return s] *)
Definition TrimSuffix (s suffix : string) : string :=
  if HasSuffix s suffix
  then substring 0 (String.length s - String.length suffix) s
  else s.

(** A [Replacer] built by [NewReplacer] from pairs whose old strings are
    all single bytes: [Replace] maps every byte of its argument on its
    own, a byte with a pair to the pair's new string (the first pair for
    that byte wins) and any other byte to itself. *)
Definition Replacer := list (ascii * string).

Fixpoint lookupByte (rp : Replacer) (c : ascii) : string :=
  match rp with
  | [] => String c ""
  | (old, new) :: rp' => if Ascii.eqb c old then new else lookupByte rp' c
  end.

Fixpoint Replace (rp : Replacer) (s : string) : string :=
  match s with
  | "" => ""
  | String c s' => lookupByte rp c +:+ Replace rp s'
  end.

End strings.

(** ** Package [time] *)

Module time.

(** An instant, as the number of nanoseconds since January 1, year 1,
    00:00:00 UTC, the instant of the zero [Time].  The location and the
    monotonic clock reading of a Go [Time] are left out: [IsZero], [Equal],
    [Before] and [Truncate] look at the instant only, and neither a file
    modification time nor a parsed header carries a monotonic reading. *)
Local Open Scope Z_scope.

Record Time : Type := { ns : Z }.

Definition Duration := Z.
Definition Second : Duration := 1000000000.

(** Seconds from year 1 to 1970. *)
Definition unixToInternal : Z := 62135596800.

Definition Unix (sec nsec : Z) : Time :=
  {| ns := (sec + unixToInternal) * Second + nsec |}.

Definition IsZero (t : Time) : bool := ns t =? 0.
Definition Equal (t u : Time) : bool := ns t =? ns u.
Definition Before (t u : Time) : bool := ns t <? ns u.
Definition Add (t : Time) (d : Duration) : Time := {| ns := ns t + d |}.

(** [Truncate] rounds [t] down to a multiple of [d] since the zero time;
    for [d <= 0] it returns [t] unchanged. *)
Definition Truncate (t : Time) (d : Duration) : Time :=
  if d <=? 0 then t else {| ns := ns t - ns t mod d |}.

End time.

(** ** Package [path] *)

Module path.

(** The output buffer of [Clean] ([lazybuf]) is the list of the bytes
    written so far, the newest first: [out.w] is its length,
    [out.append(c)] is [c :: out] and [out.w--] drops the head. *)

(** [r+1 == n || path[r+1] == '/'], on the input left after [path[r]]. *)
Definition elemEnds (rest : list ascii) : bool :=
  match rest with
  | [] => true
  | c :: _ => Ascii.eqb c slash
  end.

(** [path[r] == '.' && (r+1 == n || path[r+1] == '/')], on [path[r]] and
    the input after it. *)
Definition isDot (c : ascii) (rest1 : list ascii) : bool :=
  Ascii.eqb c dot && elemEnds rest1.

(** [path[r] == '.' && path[r+1] == '.' && (r+2 == n || path[r+2] == '/')] *)
Definition isDotDot (c : ascii) (rest1 : list ascii) : bool :=
  Ascii.eqb c dot
  && match rest1 with
     | c1 :: rest2 => Ascii.eqb c1 dot && elemEnds rest2
     | [] => false
     end.

(** The inner loop of the [..] case after the first [out.w--]:
    [for out.w > dotdot && out.index(out.w) != '/' { out.w-- }],
    where [c] is the byte at index [out.w], the one dropped last. *)
Fixpoint backtrack (dotdot : nat) (c : ascii) (out : list ascii) : list ascii :=
  if (dotdot <? length out)%nat && negb (Ascii.eqb c slash) then
    match out with
    | c' :: out' => backtrack dotdot c' out'
    | [] => []
    end
  else out.

(** [for ; r < n && path[r] != '/'; r++ { out.append(path[r]) }]:
    the input left and the buffer. *)
Fixpoint copyElem (rest out : list ascii) : list ascii * list ascii :=
  match rest with
  | [] => ([], out)
  | c :: rest' =>
      if Ascii.eqb c slash then (rest, out) else copyElem rest' (c :: out)
  end.

(** The loop [for r < n] of [Clean] on the input [rest] still to read.
    Every turn reads at least one byte, so [length rest] turns are
    enough ([cleanLoop_fuel] below). *)
Fixpoint cleanLoop (fuel : nat) (rooted : bool)
         (rest out : list ascii) (dotdot : nat) : list ascii :=
  match fuel with
  | O => out
  | S fuel' =>
      match rest with
      | [] => out
      | c :: rest1 =>
          if Ascii.eqb c slash then
            (* empty path element *)
            cleanLoop fuel' rooted rest1 out dotdot
          else if isDot c rest1 then
            (* . element *)
            cleanLoop fuel' rooted rest1 out dotdot
          else if isDotDot c rest1 then
            (* .. element: remove to last / *)
            let rest2 := tl rest1 in
            if (dotdot <? length out)%nat then
              (* can backtrack *)
              match out with
              | c0 :: out' =>
                  cleanLoop fuel' rooted rest2 (backtrack dotdot c0 out') dotdot
              | [] => cleanLoop fuel' rooted rest2 out dotdot
              end
            else if negb rooted then
              (* cannot backtrack, but not rooted, so append .. element. *)
              let out1 := if (0 <? length out)%nat then slash :: out else out in
              let out2 := dot :: dot :: out1 in
              cleanLoop fuel' rooted rest2 out2 (length out2)
            else cleanLoop fuel' rooted rest2 out dotdot
          else
            (* real path element. add slash if needed *)
            let out1 :=
              if rooted && negb (length out =? 1)%nat
                 || negb rooted && negb (length out =? 0)%nat
              then slash :: out else out in
            (* copy element *)
            let '(rest', out2) := copyElem rest out1 in
            cleanLoop fuel' rooted rest' out2 dotdot
      end
  end.

(** [Clean] returns the shortest path name equivalent to [path] by purely
    lexical processing. *)
Definition Clean (path : string) : string :=
  if path =? "" then "." else
  let p := bytes path in
  let rooted := match p with c :: _ => Ascii.eqb c slash | [] => false end in
  let out :=
    if rooted then cleanLoop (length p) rooted (tl p) [slash] 1
    else cleanLoop (length p) rooted p [] 0 in
  (* Turn empty string into "." *)
  if (length out =? 0)%nat then "." else str (rev out).

Fixpoint dropSlashes (l : list ascii) : list ascii :=
  match l with
  | c :: l' => if Ascii.eqb c slash then dropSlashes l' else l
  | [] => []
  end.

Fixpoint untilSlash (l : list ascii) : list ascii :=
  match l with
  | c :: l' => if Ascii.eqb c slash then [] else c :: untilSlash l'
  | [] => []
  end.

Fixpoint fromSlash (l : list ascii) : list ascii :=
  match l with
  | c :: l' => if Ascii.eqb c slash then l else fromSlash l'
  | [] => []
  end.

(** [Split] splits [path] immediately following the final slash, into a
    directory and a file name; without a slash the directory is empty. *)
Definition Split (path : string) : string * string :=
  let p := rev (bytes path) in
  (str (rev (fromSlash p)), str (rev (untilSlash p))).

(** [Base] returns the last element of [path]; both of its loops run from
    the end of the path, that is from the head of the reversed bytes. *)
Definition Base (path : string) : string :=
  if path =? "" then "." else
  (* Strip trailing slashes. *)
  let p := dropSlashes (rev (bytes path)) in
  (* Find the last element *)
  let p := untilSlash p in
  (* If empty now, it had only slashes. *)
  match p with
  | [] => "/"
  | _ => str (rev p)
  end.

End path.

(** ** Package [url]: the string of a [URL] that has only a [Path] *)

Module url.

Definition isAlnum (c : ascii) : bool :=
  let n := nat_of_ascii c in
  ((97 <=? n) && (n <=? 122) || (65 <=? n) && (n <=? 90)
   || (48 <=? n) && (n <=? 57))%nat.

(** [shouldEscape(c, encodePath)]. *)
Definition shouldEscape (c : ascii) : bool :=
  if isAlnum c then false else
  match c with
  (* §2.3 Unreserved characters (mark) *)
  | "-" | "_" | "." | "~" => false
  (* §2.2 Reserved characters: in a path only ? is escaped *)
  | "$" | "&" | "+" | "," | "/" | ":" | ";" | "=" | "@" => false
  | "?" => true
  (* Everything else must be escaped. *)
  | _ => true
  end%char.

Definition upperhex (n : nat) : ascii :=
  match String.get n "0123456789ABCDEF" with
  | Some c => c
  | None => "0"%char
  end.

Definition escapeByte (c : ascii) : list ascii :=
  if shouldEscape c then
    let n := nat_of_ascii c in
    ["%"%char; upperhex (n / 16); upperhex (n mod 16)]
  else [c].

(** [escape(s, encodePath)]. *)
Definition escape (s : string) : string := str (flat_map escapeByte (bytes s)).

(** [EscapedPath] of a URL without [RawPath]. *)
Definition EscapedPath (Path : string) : string :=
  if Path =? "*" then "*" else escape Path.

Definition hasColon (l : list ascii) : bool :=
  existsb (fun c => Ascii.eqb c ":"%char) l.

(** [url.URL{Path: p}.String()]: no scheme, host, query or fragment, so
    the escaped path, after [./] when its first segment holds a colon
    (RFC 3986 §4.2). *)
Definition String_ (Path : string) : string :=
  let p := EscapedPath Path in
  if hasColon (path.untilSlash (bytes p)) then "./" +:+ p else p.

End url.

(** ** Package [os]: errors and their classification *)

Module os.

(** What [os.IsNotExist] and [os.IsPermission] tell of an error. *)
Inductive Kind := NotExist | Permission | Other.

(** An error: its classification and the text of [err.Error()]. *)
Record error : Type := { kind : Kind; Error : string }.

Definition IsNotExist (err : error) : bool :=
  match kind err with NotExist => true | _ => false end.
Definition IsPermission (err : error) : bool :=
  match kind err with Permission => true | _ => false end.

End os.

(** A Go result pair [(v, err)]: either a value or a non-nil error. *)
Inductive result (A : Type) : Type :=
| Ok (v : A)
| Err (err : os.error).
Arguments Ok {A} v.
Arguments Err {A} err.

(** ** Package [http]: headers, requests, response writers, files *)

Module http.

Definition StatusOK : Z := 200%Z.
Definition StatusMovedPermanently : Z := 301%Z.
Definition StatusNotModified : Z := 304%Z.
Definition StatusForbidden : Z := 403%Z.
Definition StatusNotFound : Z := 404%Z.
Definition StatusInternalServerError : Z := 500%Z.

(** [Header] is [map[string][]string].  Every key the handler passes to
    [Get] and [Set] is already in canonical MIME form, on which the
    canonicalisation those methods apply is the identity. *)
Abbreviation Header := (gmap string (list string)).

Definition Get (h : Header) (key : string) : string :=
  match h !! key with
  | Some (v :: _) => v
  | _ => ""
  end.

Definition Set_ (h : Header) (key value : string) : Header :=
  <[key := [value]]> h.

Record Request : Type := {
  Method : string;
  Path : string;        (* r.URL.Path *)
  RawQuery : string;    (* r.URL.RawQuery *)
  ReqHeader : Header    (* r.Header *)
}.

(** [r.URL.Path = upath] *)
Definition setPath (r : Request) (upath : string) : Request :=
  {| Method := Method r; Path := upath; RawQuery := RawQuery r;
     ReqHeader := ReqHeader r |}.

(** A [ResponseWriter]: the header map, the status code once the header
    is written, and the body written so far. *)
Record ResponseWriter : Type := {
  header : Header;
  status : option Z;
  body : string
}.

Definition newResponse (h : Header) : ResponseWriter :=
  {| header := h; status := None; body := "" |}.

Definition setHeader (w : ResponseWriter) (key value : string) :=
  {| header := Set_ (header w) key value; status := status w; body := body w |}.

Definition delHeader (w : ResponseWriter) (key : string) :=
  {| header := delete key (header w); status := status w; body := body w |}.

(** The first [WriteHeader] fixes the status; later calls change nothing. *)
Definition WriteHeader (w : ResponseWriter) (code : Z) :=
  {| header := header w;
     status := match status w with None => Some code | s => s end;
     body := body w |}.

(** A write before any [WriteHeader] sends status 200 first. *)
Definition Write (w : ResponseWriter) (s : string) :=
  {| header := header w;
     status := match status w with None => Some StatusOK | s => s end;
     body := body w +:+ s |}.

Record FileInfo : Type := {
  Name : string;
  Size : Z;
  ModTime : time.Time;
  IsDir : bool
}.

(** An open [File]: what [Stat()] and [Readdir(-1)] return on it. *)
Record File : Type := {
  Stat : result FileInfo;
  Readdir : result (list FileInfo)
}.

(** A [FileSystem]: what [Open] returns for each name, together with the
    names [Open] has been called with, oldest first. *)
Record FileSystem : Type := {
  files : string -> result File;
  opened : list string
}.

(** The file system once [Open] has been called with [name]. *)
Definition logOpen (fs : FileSystem) (name : string) : FileSystem :=
  {| files := files fs; opened := opened fs ++ [name] |}.

Definition Open (fs : FileSystem) (name : string) : result File * FileSystem :=
  (files fs name, logOpen fs name).

End http.

Import http.

(** ** The handler *)

(** The line feed and the double quote. *)
Definition LF : string := String "010"%char "".
Definition DQ : string := String "034"%char "".

(** [condResult] is the result of an HTTP request precondition check. *)
Inductive condResult := condNone | condTrue | condFalse.

Definition unixEpochTime : time.Time := time.Unix 0%Z 0%Z.

Definition htmlReplacer : strings.Replacer :=
  [ ("&"%char, "&amp;");
    ("<"%char, "&lt;");
    (">"%char, "&gt;");
    (* "&#34;" is shorter than "&quot;". *)
    ("034"%char, "&#34;");
    (* "&#39;" is shorter than "&apos;" and apos was not in HTML until HTML5. *)
    ("'"%char, "&#39;") ].

Definition indexPage : string := "/index.html".

(** [url[len(url)-1] == '/'].  On an empty [url] the Go expression is out
    of range and panics, where this one is false; [ServeHTTP] hands
    [serveFile] a path that starts with a slash, so never an empty one. *)
Definition endsInSlash (url : string) : bool :=
  match lastByte url with
  | Some c => Ascii.eqb c slash
  | None => false
  end.

(** [localRedirect] gives a Moved Permanently response.
    It does not convert relative paths to absolute paths like Redirect does. *)
Definition localRedirect (w : ResponseWriter) (r : Request) (newPath : string)
  : ResponseWriter :=
  let newPath :=
    if negb (RawQuery r =? "") then newPath +:+ "?" +:+ RawQuery r
    else newPath in
  let w := setHeader w "Location" newPath in
  WriteHeader w StatusMovedPermanently.

(** [toHTTPError] returns a non-specific HTTP error message and status code
    for a given non-nil error value. *)
Definition toHTTPError (err : os.error) : string * Z :=
  if os.IsNotExist err then ("404 page not found", StatusNotFound)
  else if os.IsPermission err then ("403 Forbidden", StatusForbidden)
  else ("500 Internal Server Error", StatusInternalServerError).

(** [Error] replies to the request with the specified error message and
    HTTP code. *)
Definition Error (w : ResponseWriter) (error : string) (code : Z)
  : ResponseWriter :=
  let w := setHeader w "Content-Type" "text/plain; charset=utf-8" in
  let w := setHeader w "X-Content-Type-Options" "nosniff" in
  let w := WriteHeader w code in
  Write w (error +:+ LF).

(** [isZeroTime] reports whether [t] is obviously unspecified (either zero
    or [Unix()=0]). *)
Definition isZeroTime (t : time.Time) : bool :=
  time.IsZero t || time.Equal t unixEpochTime.

Definition writeNotModified (w : ResponseWriter) : ResponseWriter :=
  let w := delHeader w "Content-Type" in
  let w := delHeader w "Content-Length" in
  let w :=
    if negb (Get (header w) "Etag" =? "") then delHeader w "Last-Modified"
    else w in
  WriteHeader w StatusNotModified.

(** The name under which [dirList] shows an entry. *)
Definition shownName (d : FileInfo) : string :=
  if IsDir d then Name d +:+ "/" else Name d.

(** One turn of the loop of [dirList]: the anchor of an entry. *)
Definition anchor (d : FileInfo) : string :=
  let name := shownName d in
  (* name may contain '?' or '#', which must be escaped to remain
     part of the URL path, and not indicate the start of a query
     string or fragment. *)
  "<a href=" +:+ DQ +:+ url.String_ name +:+ DQ +:+ ">"
    +:+ strings.Replace htmlReplacer name +:+ "</a>" +:+ LF.

(** The comparison [dirList] sorts with. *)
Definition lessName (a b : FileInfo) : bool := (Name a <? Name b)%string.

(** [redirect to canonical path: / at end of directory url]: the new path
    of the redirect of the block [if redirect { ... }], if it redirects. *)
Definition canonicalRedirect (redirect : bool) (d : FileInfo) (url : string)
  : option string :=
  if redirect then
    if IsDir d then
      if negb (endsInSlash url) then Some (path.Base url +:+ "/") else None
    else
      if endsInSlash url then Some ("../" +:+ path.Base url) else None
  else None.

(** [use contents of index.html for directory, if present]: the name, the
    file information and the file to go on with. *)
Definition useIndex (fs : FileSystem) (name : string) (d : FileInfo) (f : File)
  : (string * FileInfo * File) * FileSystem :=
  let index := strings.TrimSuffix name "/" +:+ indexPage in
  let '(ff, fs) := Open fs index in
  match ff with
  | Ok ff =>
      match Stat ff with
      | Ok dd => ((index, dd, ff), fs)
      | Err _ => ((name, d, f), fs)
      end
  | Err _ => ((name, d, f), fs)
  end.

Section FileServer.

(** [http.ParseTime]: the time an HTTP date denotes, or an error. *)
Variable http_ParseTime : string -> result time.Time.

(** [modtime.UTC().Format(http.TimeFormat)]. *)
Variable formatHTTPTime : time.Time -> string.

(** [http.ServeContent(w, r, name, modtime, content)]. *)
Variable http_ServeContent :
  ResponseWriter -> Request -> string -> time.Time -> File -> ResponseWriter.

(** [sort.Slice(x, less)]: the slice after the call. *)
Variable sort_Slice :
  (FileInfo -> FileInfo -> bool) -> list FileInfo -> list FileInfo.

Definition checkIfModifiedSince (r : Request) (modtime : time.Time) : condResult :=
  if negb (Method r =? "GET") && negb (Method r =? "HEAD") then condNone else
  let ims := Get (ReqHeader r) "If-Modified-Since" in
  if (ims =? "") || isZeroTime modtime then condNone else
  match http_ParseTime ims with
  | Err _ => condNone
  | Ok t =>
      (* The Last-Modified header truncates sub-second precision so
         the modtime needs to be truncated too. *)
      let modtime := time.Truncate modtime time.Second in
      if time.Before modtime t || time.Equal modtime t then condFalse
      else condTrue
  end.

Definition setLastModified (w : ResponseWriter) (modtime : time.Time)
  : ResponseWriter :=
  if negb (isZeroTime modtime)
  then setHeader w "Last-Modified" (formatHTTPTime modtime)
  else w.

(** [dirList]; the line [logf] writes to the server's error log on a
    read failure is not part of the response and is left out. *)
Definition dirList (w : ResponseWriter) (r : Request) (f : File)
  : ResponseWriter :=
  match Readdir f with
  | Err err =>
      Error w "Error reading directory" StatusInternalServerError
  | Ok dirs =>
      let dirs := sort_Slice lessName dirs in
      let w := setHeader w "Content-Type" "text/html; charset=utf-8" in
      let w := Write w ("<pre>" +:+ LF) in
      let w := fold_left (fun w d => Write w (anchor d)) dirs w in
      Write w ("</pre>" +:+ LF)
  end.

(** The end of [serveFile], once the entry to serve is settled. *)
Definition deliver (w : ResponseWriter) (r : Request) (d : FileInfo) (f : File)
  : ResponseWriter :=
  (* Still a directory? (we didn't find an index.html file) *)
  if IsDir d then
    match checkIfModifiedSince r (ModTime d) with
    | condFalse => writeNotModified w
    | _ =>
        let w := setLastModified w (ModTime d) in
        dirList w r f
    end
  else
    (* serveContent will check modification time *)
    http_ServeContent w r (Name d) (ModTime d) f.

(** [serveFile]: the response and the file system after the call.
    [name] is '/'-separated, not [filepath.Separator]. *)
Definition serveFile (w : ResponseWriter) (r : Request) (fs : FileSystem)
           (name : string) (redirect : bool) : ResponseWriter * FileSystem :=
  (* redirect .../index.html to .../ *)
  if strings.HasSuffix (Path r) indexPage then (localRedirect w r "./", fs)
  else
  let '(f, fs) := Open fs name in
  match f with
  | Err err => let '(msg, code) := toHTTPError err in (Error w msg code, fs)
  | Ok f =>
  match Stat f with
  | Err err => let '(msg, code) := toHTTPError err in (Error w msg code, fs)
  | Ok d =>
  match canonicalRedirect redirect d (Path r) with
  | Some newPath => (localRedirect w r newPath, fs)
  | None =>
  let url := Path r in
  (* redirect if the directory name doesn't end in a slash *)
  if IsDir d && ((url =? "") || negb (endsInSlash url))
  then (localRedirect w r (path.Base url +:+ "/"), fs)
  else
  let '((name, d, f), fs) :=
    if IsDir d then useIndex fs name d f else ((name, d, f), fs) in
  (deliver w r d f, fs)
  end end end.

Definition ServeHTTP (root : FileSystem) (w : ResponseWriter) (r : Request)
  : ResponseWriter * FileSystem :=
  let upath := Path r in
  let '(upath, r) :=
    if negb (strings.HasPrefix upath "/") then
      let upath := "/" +:+ upath in
      (upath, setPath r upath)
    else (upath, r) in
  serveFile w r root (path.Clean upath) true.

End FileServer.

(** ** Notions the properties are stated with *)

(** The request path [ServeHTTP] works with: [r.URL.Path], after a slash
    when it does not start with one. *)
Definition urlPath (r : Request) : string :=
  if negb (strings.HasPrefix (Path r) "/") then "/" +:+ Path r else Path r.

(** What [localRedirect] appends to the new path: [?] and the raw query,
    when the request has one. *)
Definition querySuffix (r : Request) : string :=
  if negb (RawQuery r =? "") then "?" +:+ RawQuery r else "".

(** The name [serveFile] looks for the index page of directory [name] under. *)
Definition indexName (name : string) : string :=
  strings.TrimSuffix name "/" +:+ indexPage.

(** The entry [serveFile] settles on for the directory [d], opened as [f]
    under [name]: the directory itself, unless [index.html] under it can
    be opened and examined, which then takes its place. *)
Definition settled (root : FileSystem) (name : string) (d : FileInfo) (f : File)
  : FileInfo * File :=
  let '((_, d', f'), _) := useIndex (logOpen root name) name d f in (d', f').

(** The body [dirList] writes for the entries [dirs], in the order given. *)
Definition listing (dirs : list FileInfo) : string :=
  "<pre>" +:+ LF +:+ fold_right String.append "" (map anchor dirs)
    +:+ "</pre>" +:+ LF.

(** What a response that is not a redirect of the handler looks like: it is
    what [http.ServeContent] made of the fresh response, or its status is
    one of 200, 304, 403, 404 and 500 and [Location] is as it was. *)
Definition notRedirected
  (ServeContent :
     ResponseWriter -> Request -> string -> time.Time -> File -> ResponseWriter)
  (h : Header) (r : Request) (w' : ResponseWriter) : Prop :=
  (exists (d : FileInfo) (f : File),
      w' = ServeContent (newResponse h) (setPath r (urlPath r))
             (Name d) (ModTime d) f)
  \/ (In (status w')
         [Some StatusOK; Some StatusNotModified; Some StatusForbidden;
          Some StatusNotFound; Some StatusInternalServerError]
      /\ header w' !! "Location" = h !! "Location").

(** The escaping of the visible text as the specification words it: each
    of the five characters [&], [<], [>], the double quote and the single
    quote is replaced by an HTML entity, and every other byte is kept. *)
Definition htmlSpecial : list ascii :=
  ["&"%char; "<"%char; ">"%char; "034"%char; "'"%char].

Definition entityOf (c : ascii) : string :=
  match c with
  | "&"%char => "&amp;"
  | "<"%char => "&lt;"
  | ">"%char => "&gt;"
  | "034"%char => "&#34;"
  | "'"%char => "&#39;"
  | _ => String c ""
  end.

Fixpoint escapeHTML (s : string) : string :=
  match s with
  | "" => ""
  | String c s' => entityOf c +:+ escapeHTML s'
  end.

(** A path element of a cleaned path: not empty, without a slash, and
    neither [.] nor [..]. *)
Definition GoodElem (e : list ascii) : Prop :=
  e <> [] /\ ~ In slash e /\ e <> [dot] /\ e <> [dot; dot].

(** A rooted path is clean when it is [/], or a sequence of good elements
    each after one slash: it starts with a slash and has no empty element
    (no doubled and no trailing slash), no [.] and no [..]. *)
Definition CleanRooted (s : string) : Prop :=
  s = "/" \/
  exists elems, elems <> [] /\ Forall GoodElem elems
                /\ bytes s = concat (map (cons slash) elems).

(** The buffer of [Clean] on a rooted path, as the elements written. *)
Definition rootedBuf (elems : list (list ascii)) : list ascii :=
  match elems with
  | [] => [slash]
  | _ => rev (concat (map (cons slash) elems))
  end.



(** *** Following a redirect *)

(** [strings.Split(s, "/")] on bytes. *)
Fixpoint splitSlash (l : list ascii) : list (list ascii) :=
  match l with
  | [] => [[]]
  | c :: l' =>
      if Ascii.eqb c slash then [] :: splitSlash l'
      else match splitSlash l' with
           | e :: es => (c :: e) :: es
           | [] => [[c]]
           end
  end.

(** The target path of a reference [ref] that is a relative path, resolved
    against the request path [base] as a client does (RFC 3986, 5.2): the
    reference replaces what follows the last slash of [base], that is the
    file part of [path.Split base], then the [.] and [..] elements are
    removed; the elements kept are listed newest first while the path is
    walked. *)
Fixpoint removeDots (elems kept : list (list ascii)) : list (list ascii) :=
  match elems with
  | [] => rev kept
  | e :: elems' =>
      if bool_decide (e = [dot]) then
        match elems' with
        | [] => rev ([] :: kept)
        | _ => removeDots elems' kept
        end
      else if bool_decide (e = [dot; dot]) then
        match elems' with
        | [] => rev ([] :: tl kept)
        | _ => removeDots elems' (tl kept)
        end
      else removeDots elems' (e :: kept)
  end.

Definition resolvePath (base ref : string) : string :=
  let full := bytes (fst (path.Split base) +:+ ref) in
  match full with
  | c :: rest =>
      if Ascii.eqb c slash
      then str (concat (map (cons slash) (removeDots (splitSlash rest) [])))
      else str full
  | [] => ""
  end.

(** ** Test doubles *)

(** Insertion sort, which is what [sort.Slice] runs on a short slice. *)
Fixpoint insertSorted {A} (less : A -> A -> bool) (x : A) (l : list A) : list A :=
  match l with
  | [] => [x]
  | y :: l' => if less x y then x :: l else y :: insertSorted less x l'
  end.

Definition insertionSort {A} (less : A -> A -> bool) (l : list A) : list A :=
  fold_left (fun acc x => insertSorted less x acc) l [].

(** A parser that knows one date, 1 January 2015, 00:00:00 GMT. *)
Definition exampleDate : string := "Thu, 01 Jan 2015 00:00:00 GMT".
Definition exampleTime : time.Time := time.Unix 1420070400%Z 0%Z.

Definition exampleParseTime (s : string) : result time.Time :=
  if s =? exampleDate then Ok exampleTime
  else Err {| os.kind := os.Other; os.Error := "parsing time: cannot parse" |}.

Definition exampleFormat (t : time.Time) : string :=
  if time.Equal t exampleTime then exampleDate else "another date".

Definition exampleServeContent (w : ResponseWriter) (r : Request)
  (name : string) (modtime : time.Time) (f : File) : ResponseWriter :=
  Write (setHeader w "Content-Type" "text/plain; charset=utf-8")
        ("content of " +:+ name).

Definition info (name : string) (dir : bool) : FileInfo :=
  {| Name := name; Size := 0; ModTime := time.Add exampleTime 500%Z; IsDir := dir |}.

Definition regular (name : string) : File :=
  {| Stat := Ok (info name false);
     Readdir := Err {| os.kind := os.Other; os.Error := "not a directory" |} |}.

Definition directory (name : string) (children : list FileInfo) : File :=
  {| Stat := Ok (info name true); Readdir := Ok children |}.

Definition errNotExist (name : string) : os.error :=
  {| os.kind := os.NotExist; os.Error := "open " +:+ name +:+ ": no such file or directory" |}.
Definition errPermission (name : string) : os.error :=
  {| os.kind := os.Permission; os.Error := "open " +:+ name +:+ ": permission denied" |}.
Definition errIO (name : string) : os.error :=
  {| os.kind := os.Other; os.Error := "readdirent " +:+ name +:+ ": input/output error" |}.

(** An in-memory file system:
    [/] holds [docs/], [.git/], [a], [secret], [a&<b>.txt], [broken/] and
    [odd/]; [docs/] holds [sub/] and [readme.txt]; [secret] cannot be read;
    [broken/] cannot be listed; [odd/] holds a directory named [index.html]. *)
Definition rootEntries : list FileInfo :=
  [info "docs" true; info ".git" true; info "a" false; info "secret" false;
   info "a&<b>.txt" false; info "broken" true; info "odd" true].

Definition exampleFiles (name : string) : result File :=
  if name =? "/" then Ok (directory "/" rootEntries)
  else if name =? "/docs" then
    Ok (directory "docs" [info "sub" true; info "readme.txt" false])
  else if name =? "/docs/sub" then Ok (directory "sub" [])
  else if name =? "/docs/readme.txt" then Ok (regular "readme.txt")
  else if name =? "/.git" then Ok (directory ".git" [info "HEAD" false])
  else if name =? "/a" then Ok (regular "a")
  else if name =? "/a&<b>.txt" then Ok (regular "a&<b>.txt")
  else if name =? "/secret" then Err (errPermission "secret")
  else if name =? "/broken" then
    Ok {| Stat := Ok (info "broken" true); Readdir := Err (errIO "broken") |}
  else if name =? "/odd" then Ok (directory "odd" [info "index.html" true])
  else if name =? "/odd/index.html" then Ok (directory "index.html" [])
  else Err (errNotExist name).

Definition exampleFS : FileSystem := {| files := exampleFiles; opened := [] |}.

Definition request (method path query : string) : Request :=
  {| Method := method; Path := path; RawQuery := query; ReqHeader := ∅ |}.

(** A file system in which nothing exists. *)
Definition emptyFS : FileSystem :=
  {| files := fun name => Err (errNotExist name); opened := [] |}.

(** The handler over the test doubles, on a fresh response writer whose
    header map is [h]. *)
Definition exampleServe (fs : FileSystem) (h : Header) (r : Request)
  : ResponseWriter * FileSystem :=
  ServeHTTP exampleParseTime exampleFormat exampleServeContent
            (@insertionSort FileInfo) fs (newResponse h) r.

(** A conditional GET of [/docs/] with the date the parser knows, and
    response headers set before the handler runs. *)
Definition conditionalGet : Request :=
  {| Method := "GET"; Path := "/docs/"; RawQuery := "";
     ReqHeader := {["If-Modified-Since" := [exampleDate]]} |}.

Definition presetHeader : Header :=
  <["Etag" := ["v1"]]>
    (<["Last-Modified" := [exampleDate]]>
       (<["Content-Type" := ["text/html"]]> (<["X-Served-By" := ["midserve"]]> ∅))).

(** A second in-memory file system: [/site/] holds a regular
    [index.html]; [/locked/] holds an [index.html] that cannot be opened;
    [/old/] is an empty directory whose modification time is the Unix
    epoch; [/data] is a regular file. *)
Definition siteFiles (name : string) : result File :=
  if name =? "/site" then
    Ok (directory "site" [info "index.html" false; info "b" false])
  else if name =? "/site/index.html" then Ok (regular "index.html")
  else if name =? "/locked" then
    Ok (directory "locked" [info "index.html" false; info "b" false])
  else if name =? "/locked/index.html" then Err (errPermission "index.html")
  else if name =? "/old" then
    Ok {| Stat := Ok {| Name := "old"; Size := 0; ModTime := unixEpochTime;
                        IsDir := true |};
          Readdir := Ok [] |}
  else if name =? "/data" then Ok (regular "data")
  else Err (errNotExist name).

Definition siteFS : FileSystem := {| files := siteFiles; opened := [] |}.

(** * Properties *)

(** ** Strings and their bytes *)

Lemma app_nil_r_str (s : string) : s +:+ "" = s.
Proof. induction s as [|c s IH]; [reflexivity|]. cbn. now rewrite IH. Qed.

Lemma app_assoc_str (a b c : string) : (a +:+ b) +:+ c = a +:+ (b +:+ c).
Proof. induction a as [|x a IH]; [reflexivity|]. cbn. now rewrite IH. Qed.

Lemma length_app_str (a b : string) :
  String.length (a +:+ b) = String.length a + String.length b.
Proof. induction a as [|x a IH]; [reflexivity|]. cbn. now rewrite IH. Qed.

Lemma bytes_app (a b : string) : bytes (a +:+ b) = bytes a ++ bytes b.
Proof.
  unfold bytes. induction a as [|x a IH]; [reflexivity|]. cbn. now rewrite IH.
Qed.

Lemma bytes_length (s : string) : length (bytes s) = String.length s.
Proof.
  unfold bytes. induction s as [|x s IH]; [reflexivity|]. cbn. now rewrite IH.
Qed.

Lemma str_bytes (s : string) : str (bytes s) = s.
Proof. apply string_of_list_ascii_of_string. Qed.

Lemma bytes_str (l : list ascii) : bytes (str l) = l.
Proof. apply list_ascii_of_string_of_list_ascii. Qed.

Lemma bytes_inj (s t : string) : bytes s = bytes t -> s = t.
Proof. intros H. rewrite <- (str_bytes s), <- (str_bytes t). now rewrite H. Qed.


Lemma substring_all (s : string) : substring 0 (String.length s) s = s.
Proof. induction s as [|c s IH]; [reflexivity|]. cbn. now rewrite IH. Qed.

Lemma substring_prefix (a b : string) : substring 0 (String.length a) (a +:+ b) = a.
Proof.
  induction a as [|c a IH]; cbn.
  - destruct b; reflexivity.
  - now rewrite IH.
Qed.

Lemma substring_skip (a b : string) (m : nat) :
  substring (String.length a) m (a +:+ b) = substring 0 m b.
Proof. induction a as [|c a IH]; [reflexivity|]. cbn. exact IH. Qed.

Lemma substring_split (s : string) (n : nat) :
  n <= String.length s ->
  s = substring 0 n s +:+ substring n (String.length s - n) s.
Proof.
  revert n. induction s as [|c s IH]; intros n Hn.
  - destruct n; reflexivity.
  - destruct n as [|n]; cbn.
    + now rewrite substring_all.
    + cbn in Hn. rewrite <- IH by lia. reflexivity.
Qed.

Lemma HasSuffix_spec (s suffix : string) :
  strings.HasSuffix s suffix = true <-> exists pre, s = pre +:+ suffix.
Proof.
  unfold strings.HasSuffix. rewrite andb_true_iff, Nat.leb_le, String.eqb_eq.
  split.
  - intros [Hlen Heq].
    exists (substring 0 (String.length s - String.length suffix) s).
    pose proof (substring_split s (String.length s - String.length suffix)
                  ltac:(lia)) as Hs.
    replace (String.length s - (String.length s - String.length suffix))
      with (String.length suffix) in Hs by lia.
    rewrite Heq in Hs. exact Hs.
  - intros [pre ->]. rewrite length_app_str. split; [lia|].
    replace (String.length pre + String.length suffix - String.length suffix)
      with (String.length pre) by lia.
    rewrite substring_skip. apply substring_all.
Qed.

Lemma HasPrefix_spec (s prefix : string) :
  strings.HasPrefix s prefix = true <-> exists rest, s = prefix +:+ rest.
Proof.
  unfold strings.HasPrefix. rewrite andb_true_iff, Nat.leb_le, String.eqb_eq.
  split.
  - intros [Hlen Heq].
    exists (substring (String.length prefix) (String.length s - String.length prefix) s).
    pose proof (substring_split s (String.length prefix) Hlen) as Hs.
    rewrite Heq in Hs. exact Hs.
  - intros [rest ->]. rewrite length_app_str. split; [lia|].
    apply substring_prefix.
Qed.

Lemma lastByte_app (s : string) (c : ascii) : lastByte (s +:+ String c "") = Some c.
Proof.
  unfold lastByte. rewrite length_app_str. cbn.
  replace (String.length s + 1 - 1) with (String.length s) by lia.
  induction s as [|x s IH]; [reflexivity|]. cbn. exact IH.
Qed.

Lemma string_snoc (s : string) :
  s = "" \/ exists s' c, s = s' +:+ String c "".
Proof.
  induction s as [|x s IH]; [now left|]. right.
  destruct IH as [->|(s' & c & ->)].
  - exists "", x. reflexivity.
  - exists (String x s'), c. reflexivity.
Qed.

Lemma endsInSlash_spec (s : string) :
  endsInSlash s = true <-> exists pre, s = pre +:+ "/".
Proof.
  unfold endsInSlash. split.
  - destruct (string_snoc s) as [->|(s' & c & ->)]; [discriminate|].
    rewrite lastByte_app. intros H. apply Ascii.eqb_eq in H. subst c.
    now exists s'.
  - intros [pre ->]. rewrite lastByte_app. reflexivity.
Qed.

Lemma endsInSlash_HasSuffix (s : string) :
  endsInSlash s = strings.HasSuffix s "/".
Proof.
  apply eq_true_iff_eq. rewrite endsInSlash_spec, HasSuffix_spec. reflexivity.
Qed.

(** ** The precondition evaluator *)

Lemma Truncate_Second_spec (t : time.Time) :
  let t' := time.Truncate t time.Second in
  (time.ns t' mod time.Second = 0
   /\ time.ns t' <= time.ns t < time.ns t' + time.Second)%Z.
Proof.
  unfold time.Truncate, time.Second; simpl.
  pose proof (Z.mod_pos_bound (time.ns t) 1000000000 ltac:(lia)) as Hb.
  split; [|lia].
  rewrite Zminus_mod, Z.mod_mod, Z.sub_diag by lia. reflexivity.
Qed.

Lemma checkIfModifiedSince_cases
  (ParseTime : string -> result time.Time) (r : Request) (modtime : time.Time) :
  checkIfModifiedSince ParseTime r modtime =
  if ((Method r =? "GET") || (Method r =? "HEAD"))
     && negb (Get (ReqHeader r) "If-Modified-Since" =? "")
     && negb (isZeroTime modtime)
  then match ParseTime (Get (ReqHeader r) "If-Modified-Since") with
       | Ok t =>
           if (time.ns (time.Truncate modtime time.Second) <=? time.ns t)%Z
           then condFalse else condTrue
       | Err _ => condNone
       end
  else condNone.
Proof.
  unfold checkIfModifiedSince, time.Before, time.Equal.
  destruct (Method r =? "GET"), (Method r =? "HEAD"),
    (Get (ReqHeader r) "If-Modified-Since" =? ""), (isZeroTime modtime);
    cbn [negb andb orb]; try reflexivity;
    destruct (ParseTime _) as [t|err]; try reflexivity;
    destruct (Z.ltb_spec (time.ns (time.Truncate modtime time.Second)) (time.ns t));
    destruct (Z.eqb_spec (time.ns (time.Truncate modtime time.Second)) (time.ns t));
    destruct (Z.leb_spec (time.ns (time.Truncate modtime time.Second)) (time.ns t));
    cbn [negb andb orb]; try reflexivity; lia.
Qed.

Lemma checkIfModifiedSince_none_iff
  (ParseTime : string -> result time.Time) (r : Request) (modtime : time.Time) :
  checkIfModifiedSince ParseTime r modtime = condNone <->
    (Method r <> "GET" /\ Method r <> "HEAD")
    \/ Get (ReqHeader r) "If-Modified-Since" = ""
    \/ (exists err, ParseTime (Get (ReqHeader r) "If-Modified-Since") = Err err)
    \/ time.IsZero modtime = true
    \/ time.Equal modtime unixEpochTime = true.
Proof.
  rewrite checkIfModifiedSince_cases. unfold isZeroTime.
  destruct (String.eqb_spec (Method r) "GET") as [Hg|Hg];
    destruct (String.eqb_spec (Method r) "HEAD") as [Hh|Hh];
    destruct (String.eqb_spec (Get (ReqHeader r) "If-Modified-Since") "") as [He|He];
    destruct (time.IsZero modtime) eqn:Hz;
    destruct (time.Equal modtime unixEpochTime) eqn:Hu; simpl;
    try (split; [intros _; tauto | reflexivity]).
  all: destruct (ParseTime _) as [t|err] eqn:Hp;
    try (split; [intros _; eauto 8 | reflexivity]).
  all: destruct (_ <=? _)%Z; split; try discriminate.
  all: intros [[? ?]|[?|[[? ?]|[?|?]]]]; congruence.
Qed.

(** C2.  [checkIfModifiedSince] depends on the request through its method
    and its If-Modified-Since header only.  It returns [condNone] (the spec's
    no-precondition) exactly when the method is neither GET nor HEAD, or the
    header is absent (empty) or unparsable, or the modification time is the
    zero value or the Unix epoch.  Otherwise it returns [condFalse] when the
    modification time truncated to a second is at or before the header's
    time, and [condTrue] when it is after.  [condFalse] is the outcome the
    spec calls satisfied (content unchanged: the one on which the handler
    answers not modified), [condTrue] the one it calls not-satisfied (content
    changed).  In particular: for GET with header time [t], a modification
    time that is specified and truncates to [t] gives [condFalse], one that
    truncates to a second later gives [condTrue], and POST gives [condNone]
    whatever the times. *)
Theorem checkIfModifiedSince_spec
  (ParseTime : string -> result time.Time) (r : Request) (modtime : time.Time) :
  let ims := Get (ReqHeader r) "If-Modified-Since" in
  let res := checkIfModifiedSince ParseTime r modtime in
  let trunc := time.Truncate modtime time.Second in
  (forall r', Method r' = Method r ->
              Get (ReqHeader r') "If-Modified-Since" = ims ->
              checkIfModifiedSince ParseTime r' modtime = res)
  /\ (res = condNone <->
        (Method r <> "GET" /\ Method r <> "HEAD")
        \/ ims = ""
        \/ (exists err, ParseTime ims = Err err)
        \/ time.IsZero modtime = true
        \/ time.Equal modtime unixEpochTime = true)
  /\ (forall t, ParseTime ims = Ok t -> res <> condNone ->
        (res = condFalse <-> (time.ns trunc <= time.ns t)%Z)
        /\ (res = condTrue <-> (time.ns t < time.ns trunc)%Z))
  /\ (Method r = "POST" -> res = condNone)
  /\ (forall t, Method r = "GET" -> ims <> "" -> ParseTime ims = Ok t ->
        isZeroTime modtime = false ->
        (trunc = t -> res = condFalse)
        /\ (trunc = time.Add t time.Second -> res = condTrue)).
Proof.
  cbv zeta. split; [|split; [|split; [|split]]].
  - intros r' Hm Hh. unfold checkIfModifiedSince. rewrite Hm, Hh. reflexivity.
  - apply checkIfModifiedSince_none_iff.
  - intros t Hp. rewrite checkIfModifiedSince_cases, Hp.
    destruct (_ && _); [|congruence]. intros _.
    destruct (Z.leb_spec (time.ns (time.Truncate modtime time.Second)) (time.ns t));
      split; split; intros; try lia; congruence.
  - intros Hm. rewrite checkIfModifiedSince_cases, Hm. reflexivity.
  - intros t Hm He Hp Hz. rewrite checkIfModifiedSince_cases, Hm, Hp, Hz.
    apply String.eqb_neq in He. rewrite He. cbn [negb andb orb String.eqb Ascii.eqb].
    split; intros ->.
    + rewrite Z.leb_refl. reflexivity.
    + unfold time.Add, time.Second. cbn [time.ns].
      destruct (Z.leb_spec (time.ns t + 1000000000) (time.ns t)); [lia|reflexivity].
Qed.

(** ** [path.Base] and [path.Split] *)





(** ** [path.Clean] on a rooted path *)

Lemma untilSlash_no_slash (l : list ascii) : ~ In slash (path.untilSlash l).
Proof.
  induction l as [|c l IH]; cbn; [tauto|].
  destruct (Ascii.eqb_spec c slash) as [->|Hc]; cbn; [tauto|].
  intros [H|H]; [congruence|auto].
Qed.

Lemma fromSlash_length (l : list ascii) : length (path.fromSlash l) <= length l.
Proof.
  induction l as [|c l IH]; cbn; [lia|].
  destruct (Ascii.eqb c slash); cbn; lia.
Qed.

Lemma elemEnds_untilSlash (l : list ascii) :
  path.elemEnds l = true <-> path.untilSlash l = [].
Proof.
  destruct l as [|c l]; cbn; [tauto|].
  destruct (Ascii.eqb c slash); split; congruence.
Qed.

Lemma copyElem_spec (rest out : list ascii) :
  path.copyElem rest out
  = (path.fromSlash rest, rev (path.untilSlash rest) ++ out).
Proof.
  revert out. induction rest as [|c rest IH]; intros out; cbn; [reflexivity|].
  destruct (Ascii.eqb c slash); [reflexivity|].
  rewrite IH. cbn. now rewrite <- app_assoc.
Qed.

Lemma rootedBuf_snoc (elems : list (list ascii)) (e : list ascii) :
  rootedBuf (elems ++ [e])
  = rev e ++ slash :: match elems with [] => [] | _ => rootedBuf elems end.
Proof.
  unfold rootedBuf. destruct (elems ++ [e]) eqn:H.
  - now destruct elems.
  - rewrite <- H, map_app, concat_app, rev_app_distr. cbn.
    rewrite app_nil_r, <- app_assoc. cbn.
    destruct elems; reflexivity.
Qed.

Lemma rootedBuf_length (elems : list (list ascii)) :
  Forall GoodElem elems ->
  (length (rootedBuf elems) =? 1)%nat = match elems with [] => true | _ => false end.
Proof.
  intros H. destruct elems as [|e elems]; [reflexivity|].
  inversion H as [|? ? [He _] _]; subst.
  unfold rootedBuf. rewrite length_rev. cbn.
  destruct e; [contradiction|]. reflexivity.
Qed.

Lemma backtrack_eq (dotdot : nat) (c : ascii) (out : list ascii) :
  path.backtrack dotdot c out
  = if (dotdot <? length out)%nat && negb (Ascii.eqb c slash) then
      match out with
      | c' :: out' => path.backtrack dotdot c' out'
      | [] => []
      end
    else out.
Proof. destruct out; reflexivity. Qed.

Lemma backtrack_elem (t rest : list ascii) (c : ascii) :
  ~ In slash (c :: t) ->
  (rest = [] \/ 1 < length rest) ->
  path.backtrack 1 c (t ++ slash :: rest)
  = match rest with [] => [slash] | _ => rest end.
Proof.
  revert c. induction t as [|c1 t IH]; intros c Hns Hrest;
    (assert (Hc : Ascii.eqb c slash = false)
      by (apply Ascii.eqb_neq; intros ->; apply Hns; now left));
    rewrite backtrack_eq, Hc; cbn [app negb].
  - destruct rest as [|x rest]; [reflexivity|].
    destruct Hrest as [|Hl]; [discriminate|].
    replace (1 <? length (slash :: x :: rest))%nat with true
      by (symmetry; apply Nat.ltb_lt; cbn; lia).
    cbn [andb]. rewrite backtrack_eq, Ascii.eqb_refl, andb_false_r.
    reflexivity.
  - replace (1 <? length (c1 :: t ++ slash :: rest))%nat with true
      by (symmetry; apply Nat.ltb_lt; cbn; rewrite length_app; cbn; lia).
    cbn [andb]. apply IH; [|exact Hrest].
    intros H. apply Hns. now right.
Qed.

Lemma snoc_case {A} (l : list A) : l = [] \/ exists l' x, l = l' ++ [x].
Proof. induction l using rev_ind; [now left|right; eauto]. Qed.

Lemma GoodElem_rev_cons (e : list ascii) :
  GoodElem e -> exists c t, rev e = c :: t /\ ~ In slash (c :: t).
Proof.
  intros (Hne & Hns & _).
  destruct (rev e) as [|c t] eqn:Hr.
  - apply (f_equal (@rev ascii)) in Hr. rewrite rev_involutive in Hr.
    contradiction.
  - exists c, t. split; [reflexivity|]. rewrite <- Hr, <- in_rev. exact Hns.
Qed.

Lemma rootedBuf_long (elems : list (list ascii)) :
  Forall GoodElem elems -> elems <> [] -> 1 < length (rootedBuf elems).
Proof.
  intros H Hne. destruct elems as [|e elems]; [contradiction|].
  inversion H as [|? ? [He _] _]; subst.
  unfold rootedBuf. rewrite length_rev. cbn [map concat].
  destruct e; [contradiction|]. cbn. lia.
Qed.

Lemma rootedBuf_pop (elems : list (list ascii)) (e : list ascii) :
  Forall GoodElem (elems ++ [e]) ->
  exists c out',
    rootedBuf (elems ++ [e]) = c :: out'
    /\ path.backtrack 1 c out' = rootedBuf elems.
Proof.
  intros H. apply Forall_app in H as [Hel He].
  inversion He as [|? ? Hg _]; subst.
  destruct (GoodElem_rev_cons e Hg) as (c & t & Hr & Hns).
  exists c. eexists. rewrite rootedBuf_snoc, Hr. split; [reflexivity|].
  rewrite backtrack_elem; [|exact Hns|].
  - destruct elems as [|e0 elems]; [reflexivity|].
    pose proof (rootedBuf_long (e0 :: elems) Hel ltac:(discriminate)) as Hl.
    destruct (rootedBuf (e0 :: elems)); [cbn in Hl; lia|reflexivity].
  - destruct elems as [|e0 elems]; [now left|right].
    apply rootedBuf_long; [exact Hel|discriminate].
Qed.

Lemma rootedBuf_push (elems : list (list ascii)) (e : list ascii) :
  Forall GoodElem elems ->
  rev e ++ (if true && negb (length (rootedBuf elems) =? 1)%nat
               || negb true && negb (length (rootedBuf elems) =? 0)%nat
            then slash :: rootedBuf elems else rootedBuf elems)
  = rootedBuf (elems ++ [e]).
Proof.
  intros H. rewrite rootedBuf_snoc, rootedBuf_length by exact H.
  destruct elems; reflexivity.
Qed.

Lemma real_elem_good (c : ascii) (rest1 : list ascii) :
  Ascii.eqb c slash = false ->
  path.isDot c rest1 = false ->
  path.isDotDot c rest1 = false ->
  GoodElem (path.untilSlash (c :: rest1)).
Proof.
  unfold path.isDot, path.isDotDot.
  intros Hs H1 H2. cbn [path.untilSlash]. rewrite Hs.
  split; [discriminate|]. split; [|split].
  - intros [->|H]; [now rewrite Ascii.eqb_refl in Hs|].
    now apply untilSlash_no_slash in H.
  - intros [= -> Hu]. apply elemEnds_untilSlash in Hu.
    rewrite Ascii.eqb_refl, Hu in H1. discriminate.
  - intros [= -> Hu]. rewrite Ascii.eqb_refl in H2. cbn [andb] in H2.
    destruct rest1 as [|c1 rest2]; [discriminate|]. cbn [path.untilSlash] in Hu.
    destruct (Ascii.eqb c1 slash); [discriminate|].
    injection Hu as -> Hu. apply elemEnds_untilSlash in Hu.
    rewrite Ascii.eqb_refl, Hu in H2. discriminate.
Qed.

(** The loop of [Clean] keeps the buffer of a rooted path a sequence of
    good elements. *)
Lemma cleanLoop_rooted (fuel : nat) (rest : list ascii)
      (elems : list (list ascii)) :
  Forall GoodElem elems ->
  exists elems',
    Forall GoodElem elems'
    /\ path.cleanLoop fuel true rest (rootedBuf elems) 1 = rootedBuf elems'.
Proof.
  revert rest elems. induction fuel as [|fuel IH]; intros rest elems Hel;
    [exists elems; auto|].
  destruct rest as [|c rest1]; [exists elems; auto|].
  cbn [path.cleanLoop].
  destruct (Ascii.eqb c slash) eqn:Hs; [apply IH, Hel|].
  destruct (path.isDot c rest1) eqn:H1; [apply IH, Hel|].
  destruct (path.isDotDot c rest1) eqn:H2.
  - destruct (1 <? length (rootedBuf elems))%nat eqn:Hlen.
    + destruct (snoc_case elems) as [->|(elems0 & e & ->)];
        [discriminate Hlen|].
      destruct (rootedBuf_pop elems0 e Hel) as (c0 & out' & -> & ->).
      apply IH. now apply Forall_app in Hel as [? _].
    + cbn [negb]. apply IH, Hel.
  - rewrite copyElem_spec, rootedBuf_push by exact Hel.
    apply IH. apply Forall_app. split; [exact Hel|].
    constructor; [|constructor]. now apply real_elem_good.
Qed.

(** The loop reads at least a byte a turn: [length rest] turns are enough,
    and more change nothing. *)
Lemma cleanLoop_fuel (fuel1 fuel2 : nat) (rooted : bool)
      (rest out : list ascii) (dotdot : nat) :
  length rest <= fuel1 -> length rest <= fuel2 ->
  path.cleanLoop fuel1 rooted rest out dotdot
  = path.cleanLoop fuel2 rooted rest out dotdot.
Proof.
  revert fuel2 rest out dotdot.
  induction fuel1 as [|fuel1 IH]; intros fuel2 rest out dotdot H1 H2.
  - destruct rest; [|cbn in H1; lia]. now destruct fuel2.
  - destruct rest as [|c rest1]; [now destruct fuel2|].
    destruct fuel2 as [|fuel2]; [cbn in H2; lia|].
    cbn in H1, H2. cbn [path.cleanLoop].
    assert (Htl : length (tl rest1) <= length rest1) by (destruct rest1; cbn; lia).
    destruct (Ascii.eqb c slash) eqn:Hs; [apply IH; lia|].
    destruct (path.isDot c rest1); [apply IH; lia|].
    destruct (path.isDotDot c rest1).
    + destruct (dotdot <? length out)%nat.
      * destruct out; apply IH; lia.
      * destruct (negb rooted); apply IH; lia.
    + rewrite copyElem_spec. cbn [path.fromSlash]. rewrite Hs.
      pose proof (fromSlash_length rest1). apply IH; lia.
Qed.

Lemma rootedBuf_clean (elems : list (list ascii)) :
  Forall GoodElem elems -> CleanRooted (str (rev (rootedBuf elems))).
Proof.
  intros H. destruct elems as [|e elems]; [now left|right].
  exists (e :: elems). split; [discriminate|]. split; [exact H|].
  unfold rootedBuf. now rewrite rev_involutive, bytes_str.
Qed.

Lemma rootedBuf_nonempty (elems : list (list ascii)) :
  (length (rootedBuf elems) =? 0)%nat = false.
Proof.
  destruct elems as [|e elems]; [reflexivity|].
  unfold rootedBuf. rewrite length_rev. reflexivity.
Qed.

(** [Clean] of a rooted path is a clean rooted path. *)
Lemma Clean_rooted (rest : string) : CleanRooted (path.Clean ("/" +:+ rest)).
Proof.
  unfold path.Clean. cbn [String.append String.eqb bytes list_ascii_of_string tl].
  rewrite Ascii.eqb_refl.
  destruct (cleanLoop_rooted (length (slash :: list_ascii_of_string rest))
              (list_ascii_of_string rest) [] ltac:(constructor))
    as (elems & Hel & Heq).
  change (rootedBuf []) with [slash] in Heq.
  change ("/"%char) with slash. rewrite Heq.
  rewrite rootedBuf_nonempty. now apply rootedBuf_clean.
Qed.

Lemma CleanRooted_prefix (s : string) :
  CleanRooted s -> strings.HasPrefix s "/" = true.
Proof.
  intros [->|(elems & Hne & _ & Hb)]; [reflexivity|].
  apply HasPrefix_spec. destruct elems as [|e elems]; [contradiction|].
  cbn in Hb. exists (str (e ++ concat (map (cons slash) elems))).
  apply bytes_inj. rewrite Hb, bytes_app, bytes_str. reflexivity.
Qed.

Lemma GoodElem_index : GoodElem (bytes "index.html").
Proof.
  repeat split; try discriminate. cbn. unfold slash.
  intros H. repeat (destruct H as [H|H]; [discriminate|]). contradiction.
Qed.

Lemma CleanRooted_last (s : string) (elems : list (list ascii)) :
  elems <> [] -> Forall GoodElem elems ->
  bytes s = concat (map (cons slash) elems) ->
  endsInSlash s = false.
Proof.
  intros Hne Hel Hb.
  destruct (snoc_case elems) as [->|(elems0 & e & ->)]; [contradiction|].
  apply Forall_app in Hel as [_ He]. inversion He as [|? ? (Hn & Hs & _) _]; subst.
  destruct (snoc_case e) as [->|(e0 & c & ->)]; [contradiction|].
  rewrite map_app, concat_app in Hb. cbn in Hb. rewrite app_nil_r in Hb.
  assert (Heq : s = str (concat (map (cons slash) elems0) ++ slash :: e0)
                  +:+ String c "").
  { apply bytes_inj. rewrite Hb, bytes_app, bytes_str, <- app_assoc. reflexivity. }
  unfold endsInSlash. rewrite Heq, lastByte_app.
  apply Ascii.eqb_neq. intros ->. apply Hs, in_or_app. right. now left.
Qed.

(** The name of the index page of a clean directory name is clean. *)
Lemma indexName_clean (name : string) :
  CleanRooted name -> CleanRooted (indexName name).
Proof.
  intros [->|(elems & Hne & Hel & Hb)]; right.
  - exists [bytes "index.html"]. split; [discriminate|].
    split; [constructor; [apply GoodElem_index|constructor]|reflexivity].
  - exists (elems ++ [bytes "index.html"]).
    split; [now destruct elems|]. split.
    + apply Forall_app. split; [exact Hel|].
      constructor; [apply GoodElem_index|constructor].
    + unfold indexName, strings.TrimSuffix.
      rewrite <- endsInSlash_HasSuffix, (CleanRooted_last name elems) by assumption.
      rewrite bytes_app, Hb, map_app, concat_app. reflexivity.
Qed.

(** *** [Clean] leaves a clean rooted path as it is *)

Lemma slashes_head (elems : list (list ascii)) :
  path.elemEnds (concat (map (cons slash) elems)) = true.
Proof. destruct elems; reflexivity. Qed.

Lemma untilSlash_app (e rest : list ascii) :
  ~ In slash e -> path.elemEnds rest = true ->
  path.untilSlash (e ++ rest) = e /\ path.fromSlash (e ++ rest) = rest.
Proof.
  intros Hs Hr. induction e as [|c e IH]; cbn [app].
  - destruct rest as [|x rest]; [now split|]. cbn in *. rewrite Hr. now split.
  - cbn. destruct (Ascii.eqb_spec c slash) as [->|Hc]; [exfalso; apply Hs; now left|].
    destruct IH as [-> ->]; [intros H; apply Hs; now right|]. now split.
Qed.

Lemma elemEnds_app (e rest : list ascii) :
  e <> [] -> ~ In slash e -> path.elemEnds (e ++ rest) = false.
Proof.
  destruct e as [|c e]; [contradiction|]. intros _ Hs. cbn.
  apply Ascii.eqb_neq. intros ->. apply Hs. now left.
Qed.

Lemma GoodElem_real (c : ascii) (e rest : list ascii) :
  GoodElem (c :: e) ->
  Ascii.eqb c slash = false
  /\ path.isDot c (e ++ rest) = false
  /\ path.isDotDot c (e ++ rest) = false.
Proof.
  intros (_ & Hs & Hd & Hdd). unfold path.isDot, path.isDotDot.
  assert (Hc : Ascii.eqb c slash = false)
    by (apply Ascii.eqb_neq; intros ->; apply Hs; now left).
  assert (Hse : ~ In slash e) by (intros H; apply Hs; now right).
  split; [exact Hc|].
  destruct (Ascii.eqb_spec c dot) as [->|_]; [|now split]. cbn [andb].
  destruct e as [|c1 e]; [congruence|]. split.
  - apply (elemEnds_app (c1 :: e)); [discriminate|exact Hse].
  - cbn [app]. destruct (Ascii.eqb_spec c1 dot) as [->|_]; [|reflexivity].
    cbn [andb]. destruct e as [|c2 e]; [congruence|].
    apply (elemEnds_app (c2 :: e)); [discriminate|].
    intros H. apply Hse. now right.
Qed.

Lemma cleanLoop_clean (elems done : list (list ascii)) (fuel : nat) :
  Forall GoodElem elems -> Forall GoodElem done ->
  length (concat (map (cons slash) elems)) <= fuel ->
  path.cleanLoop fuel true (concat (map (cons slash) elems)) (rootedBuf done) 1
  = rootedBuf (done ++ elems).
Proof.
  revert done fuel. induction elems as [|e elems IH]; intros done fuel Hel Hd Hf.
  - rewrite app_nil_r. now destruct fuel.
  - inversion Hel as [|? ? He Hel']; subst.
    cbn [map concat] in *. cbn [app length] in Hf.
    destruct e as [|c e]; [now destruct He|].
    rewrite length_app in Hf. cbn [app length] in Hf.
    destruct fuel as [|[|fuel]]; [lia|lia|].
    cbn [path.cleanLoop app]. rewrite Ascii.eqb_refl.
    set (rest := concat (map (cons slash) elems)) in *.
    destruct (GoodElem_real c e rest He) as (Hs & H1 & H2).
    rewrite Hs, H1, H2, copyElem_spec.
    destruct (untilSlash_app (c :: e) rest) as [Hu Hfr];
      [apply He|apply slashes_head|].
    cbn [app] in Hu, Hfr. rewrite Hu, Hfr, rootedBuf_push by exact Hd.
    rewrite IH; [now rewrite <- app_assoc|exact Hel'| |lia].
    apply Forall_app. split; [exact Hd|]. now constructor.
Qed.

Lemma Clean_clean (s : string) : CleanRooted s -> path.Clean s = s.
Proof.
  intros [->|(elems & Hne & Hel & Hb)]; [reflexivity|].
  unfold path.Clean. destruct (String.eqb_spec s "") as [->|_].
  - destruct elems; [contradiction|discriminate].
  - fold (bytes s). rewrite Hb. destruct elems as [|e elems]; [contradiction|].
    cbn [map concat app tl]. rewrite Ascii.eqb_refl.
    pose proof (cleanLoop_clean (e :: elems) []
                  (S (length (concat (map (cons slash) (e :: elems)))))
                  Hel ltac:(constructor) ltac:(lia)) as Hc.
    cbn [map concat app path.cleanLoop] in Hc. rewrite Ascii.eqb_refl in Hc.
    change (rootedBuf []) with [slash] in Hc. cbn [length] in Hc.
    cbn [length]. rewrite Hc.
    rewrite rootedBuf_nonempty. unfold rootedBuf. cbn [app].
    rewrite rev_involutive. apply bytes_inj. now rewrite bytes_str, Hb.
Qed.

(** ** The handler, step by step *)

Section Handler.

Variable ParseTime : string -> result time.Time.
Variable formatTime : time.Time -> string.
Variable ServeContent :
  ResponseWriter -> Request -> string -> time.Time -> File -> ResponseWriter.
Variable sortSlice :
  (FileInfo -> FileInfo -> bool) -> list FileInfo -> list FileInfo.

Local Abbreviation serveFile := (serveFile ParseTime formatTime ServeContent sortSlice).
Local Abbreviation ServeHTTP := (ServeHTTP ParseTime formatTime ServeContent sortSlice).
Local Abbreviation deliver := (deliver ParseTime formatTime ServeContent sortSlice).
Local Abbreviation dirList := (dirList sortSlice).
Local Abbreviation setLastModified := (setLastModified formatTime).
Local Abbreviation checkIfModifiedSince := (checkIfModifiedSince ParseTime).
Local Abbreviation notRedirected := (notRedirected ServeContent).

Lemma urlPath_rooted (r : Request) : exists rest, urlPath r = "/" +:+ rest.
Proof.
  unfold urlPath. destruct (strings.HasPrefix (Path r) "/") eqn:H; cbn.
  - apply HasPrefix_spec in H. exact H.
  - now exists (Path r).
Qed.

Lemma urlPath_setPath (r : Request) : urlPath (setPath r (urlPath r)) = urlPath r.
Proof.
  unfold urlPath at 1. cbn.
  destruct (urlPath_rooted r) as [rest Hr].
  assert (H : strings.HasPrefix (urlPath r) "/" = true)
    by (apply HasPrefix_spec; eauto).
  now rewrite H.
Qed.

Lemma ServeHTTP_serveFile (root : FileSystem) (w : ResponseWriter) (r : Request) :
  ServeHTTP root w r
  = serveFile w (setPath r (urlPath r)) root (path.Clean (urlPath r)) true.
Proof.
  unfold ServeHTTP, urlPath.
  destruct (strings.HasPrefix (Path r) "/"); cbn; [|reflexivity].
  destruct r; reflexivity.
Qed.

Lemma HasSuffix_urlPath (r : Request) (suffix : string) :
  strings.HasSuffix (Path r) suffix = true ->
  strings.HasSuffix (urlPath r) suffix = true.
Proof.
  unfold urlPath. destruct (strings.HasPrefix (Path r) "/"); cbn; [auto|].
  rewrite !HasSuffix_spec. intros [pre ->]. exists ("/" +:+ pre).
  now rewrite app_assoc_str.
Qed.

Lemma localRedirect_new (h : Header) (r : Request) (newPath : string) :
  localRedirect (newResponse h) r newPath
  = {| header := <["Location" := [newPath +:+ querySuffix r]]> h;
       status := Some StatusMovedPermanently; body := "" |}.
Proof.
  unfold localRedirect, querySuffix, setHeader, WriteHeader, newResponse, Set_.
  cbn. destruct (RawQuery r =? ""); cbn; [now rewrite app_nil_r_str|reflexivity].
Qed.

Lemma querySuffix_setPath (r : Request) (p : string) :
  querySuffix (setPath r p) = querySuffix r.
Proof. reflexivity. Qed.

(** The redirect of a request for an index page: the whole outcome. *)
Lemma ServeHTTP_index (root : FileSystem) (h : Header) (r : Request) :
  strings.HasSuffix (Path r) indexPage = true ->
  ServeHTTP root (newResponse h) r
  = ({| header := <["Location" := ["./" +:+ querySuffix r]]> h;
        status := Some StatusMovedPermanently; body := "" |}, root).
Proof.
  intros H. apply HasSuffix_urlPath in H.
  rewrite ServeHTTP_serveFile. unfold serveFile.
  cbn [Path setPath]. rewrite H. rewrite localRedirect_new. reflexivity.
Qed.

Lemma urlPath_nonempty (r : Request) : urlPath r <> "".
Proof. destruct (urlPath_rooted r) as [rest ->]. discriminate. Qed.

(** The redirect of a request for a directory, without the final slash. *)
Lemma ServeHTTP_directory (root : FileSystem) (h : Header) (r : Request)
      (f : File) (d : FileInfo) :
  strings.HasSuffix (urlPath r) indexPage = false ->
  endsInSlash (urlPath r) = false ->
  files root (path.Clean (urlPath r)) = Ok f ->
  Stat f = Ok d ->
  IsDir d = true ->
  ServeHTTP root (newResponse h) r
  = ({| header :=
          <["Location" := [path.Base (urlPath r) +:+ "/" +:+ querySuffix r]]> h;
        status := Some StatusMovedPermanently; body := "" |},
     logOpen root (path.Clean (urlPath r))).
Proof.
  intros Hidx Hend Hf Hd Hdir.
  rewrite ServeHTTP_serveFile. unfold serveFile, Open, canonicalRedirect.
  cbn [Path setPath]. rewrite Hidx, Hf, Hd, Hdir, Hend. cbn [negb].
  rewrite localRedirect_new, querySuffix_setPath, app_assoc_str. reflexivity.
Qed.


Lemma ServeHTTP_open_error (root : FileSystem) (w : ResponseWriter)
      (r : Request) (err : os.error) :
  strings.HasSuffix (urlPath r) indexPage = false ->
  files root (path.Clean (urlPath r)) = Err err ->
  ServeHTTP root w r
  = (Error w (fst (toHTTPError err)) (snd (toHTTPError err)),
     logOpen root (path.Clean (urlPath r))).
Proof.
  intros Hidx Hf. rewrite ServeHTTP_serveFile. unfold serveFile, Open.
  cbn [Path setPath]. rewrite Hidx, Hf. destruct (toHTTPError err). reflexivity.
Qed.

Lemma ServeHTTP_stat_error (root : FileSystem) (w : ResponseWriter)
      (r : Request) (f : File) (err : os.error) :
  strings.HasSuffix (urlPath r) indexPage = false ->
  files root (path.Clean (urlPath r)) = Ok f ->
  Stat f = Err err ->
  ServeHTTP root w r
  = (Error w (fst (toHTTPError err)) (snd (toHTTPError err)),
     logOpen root (path.Clean (urlPath r))).
Proof.
  intros Hidx Hf Hd. rewrite ServeHTTP_serveFile. unfold serveFile, Open.
  cbn [Path setPath]. rewrite Hidx, Hf, Hd. destruct (toHTTPError err).
  reflexivity.
Qed.

(** A request for a regular file, without a final slash. *)
Lemma ServeHTTP_file (root : FileSystem) (w : ResponseWriter) (r : Request)
      (f : File) (d : FileInfo) :
  strings.HasSuffix (urlPath r) indexPage = false ->
  endsInSlash (urlPath r) = false ->
  files root (path.Clean (urlPath r)) = Ok f ->
  Stat f = Ok d ->
  IsDir d = false ->
  ServeHTTP root w r
  = (ServeContent w (setPath r (urlPath r)) (Name d) (ModTime d) f,
     logOpen root (path.Clean (urlPath r))).
Proof.
  intros Hidx Hend Hf Hd Hdir.
  rewrite ServeHTTP_serveFile. unfold serveFile, Open, canonicalRedirect.
  cbn [Path setPath]. rewrite Hidx, Hf, Hd, Hdir, Hend. cbn [negb andb].
  unfold deliver. rewrite Hdir. reflexivity.
Qed.

(** A request for a directory, with the final slash. *)
Lemma ServeHTTP_listing (root : FileSystem) (w : ResponseWriter) (r : Request)
      (f : File) (d : FileInfo) :
  strings.HasSuffix (urlPath r) indexPage = false ->
  endsInSlash (urlPath r) = true ->
  files root (path.Clean (urlPath r)) = Ok f ->
  Stat f = Ok d ->
  IsDir d = true ->
  ServeHTTP root w r
  = let '((_, d', f'), fs) :=
      useIndex (logOpen root (path.Clean (urlPath r)))
               (path.Clean (urlPath r)) d f in
    (deliver w (setPath r (urlPath r)) d' f', fs).
Proof.
  intros Hidx Hend Hf Hd Hdir.
  rewrite ServeHTTP_serveFile. unfold serveFile, Open, canonicalRedirect.
  cbn [Path setPath]. rewrite Hidx, Hf, Hd, Hdir, Hend. cbn [negb andb orb].
  destruct (String.eqb_spec (urlPath r) "") as [He|_];
    [now apply urlPath_nonempty in He|]. cbn [negb andb orb].
  destruct (useIndex _ _ _ _) as [[[name' d'] f'] fs]. reflexivity.
Qed.


Lemma checkIfModifiedSince_setPath (r : Request) (p : string) (t : time.Time) :
  checkIfModifiedSince (setPath r p) t = checkIfModifiedSince r t.
Proof. reflexivity. Qed.

Lemma ServeHTTP_settled (root : FileSystem) (w : ResponseWriter) (r : Request)
      (f : File) (d : FileInfo) :
  strings.HasSuffix (urlPath r) indexPage = false ->
  endsInSlash (urlPath r) = true ->
  files root (path.Clean (urlPath r)) = Ok f ->
  Stat f = Ok d ->
  IsDir d = true ->
  fst (ServeHTTP root w r)
  = deliver w (setPath r (urlPath r))
      (fst (settled root (path.Clean (urlPath r)) d f))
      (snd (settled root (path.Clean (urlPath r)) d f)).
Proof.
  intros Hidx Hend Hf Hd Hdir.
  rewrite (ServeHTTP_listing root w r f d) by assumption. unfold settled.
  destruct (useIndex _ _ _ _) as [[[name' d'] f'] fs]. reflexivity.
Qed.


Lemma deliver_listing (w : ResponseWriter) (r : Request) (d : FileInfo) (f : File) :
  IsDir d = true ->
  checkIfModifiedSince r (ModTime d) <> condFalse ->
  deliver w (setPath r (urlPath r)) d f
  = dirList (setLastModified w (ModTime d)) (setPath r (urlPath r)) f.
Proof.
  intros Hdir Hcond. unfold deliver.
  rewrite Hdir, checkIfModifiedSince_setPath.
  destruct (checkIfModifiedSince r (ModTime d)); congruence.
Qed.

Lemma files_logOpen (fs : FileSystem) (name : string) :
  files (logOpen fs name) = files fs.
Proof. reflexivity. Qed.

Lemma fold_Write (l : list string) (w : ResponseWriter) (c : Z) :
  status w = Some c ->
  fold_left Write l w
  = {| header := header w; status := Some c;
       body := body w +:+ fold_right String.append "" l |}.
Proof.
  revert w. induction l as [|s l IH]; intros w Hw; cbn.
  - rewrite app_nil_r_str. destruct w; cbn in *. now subst.
  - rewrite IH by (cbn; now rewrite Hw). cbn. now rewrite app_assoc_str.
Qed.

Lemma fold_Write_anchor (l : list FileInfo) (w : ResponseWriter) :
  fold_left (fun w d => Write w (anchor d)) l w = fold_left Write (map anchor l) w.
Proof. revert w. induction l as [|d l IH]; intros w; cbn; [reflexivity|apply IH]. Qed.

(** The listing [dirList] writes on a fresh response. *)
Lemma dirList_ok (w : ResponseWriter) (r : Request) (f : File)
      (dirs : list FileInfo) :
  status w = None -> body w = "" ->
  Readdir f = Ok dirs ->
  dirList w r f
  = {| header := <["Content-Type" := ["text/html; charset=utf-8"]]> (header w);
       status := Some StatusOK;
       body := listing (sortSlice lessName dirs) |}.
Proof.
  intros Hs Hb Hr. unfold dirList. rewrite Hr.
  rewrite fold_Write_anchor.
  rewrite (fold_Write _ _ StatusOK) by (cbn; now rewrite Hs).
  unfold Write, setHeader, listing; cbn. rewrite Hb. cbn.
  reflexivity.
Qed.

Lemma dirList_error (w : ResponseWriter) (r : Request) (f : File)
      (err : os.error) :
  Readdir f = Err err ->
  dirList w r f = Error w "Error reading directory" StatusInternalServerError.
Proof. unfold dirList. now intros ->. Qed.

Lemma setLastModified_status (w : ResponseWriter) (t : time.Time) :
  status (setLastModified w t) = status w /\ body (setLastModified w t) = body w.
Proof. unfold setLastModified. destruct (negb _); split; reflexivity. Qed.

(** *** Reading a header map after updates *)

Lemma Get_insert (h : Header) (k k' v : string) :
  Get (<[k := [v]]> h) k' = if decide (k = k') then v else Get h k'.
Proof.
  unfold Get. rewrite lookup_insert. destruct (decide (k = k')); reflexivity.
Qed.

Lemma Get_delete (h : Header) (k k' : string) :
  Get (delete k h) k' = if decide (k = k') then "" else Get h k'.
Proof.
  unfold Get. rewrite lookup_delete. destruct (decide (k = k')); reflexivity.
Qed.

Ltac get_header :=
  unfold Set_; rewrite ?Get_insert, ?Get_delete;
  repeat (case_decide; try discriminate; try congruence); try reflexivity.

(** ** Redirects *)

(** C5.  For every request whose URL path ends in [/index.html] the handler
    answers 301 Moved Permanently and sets [Location] to [./], followed by
    [?] and the raw query when the request has one; it writes no body.  The
    rule comes first and ends the handling: the answer is the same whatever
    the file system holds, so no rule that looks at the entry (directory or
    file, final slash) has a say. *)
Theorem index_redirect (root : FileSystem) (h : Header) (r : Request) :
  strings.HasSuffix (Path r) indexPage = true ->
  let w' := fst (ServeHTTP root (newResponse h) r) in
  status w' = Some StatusMovedPermanently
  /\ header w' = <["Location" := ["./" +:+ querySuffix r]]> h
  /\ (RawQuery r = "" -> Get (header w') "Location" = "./")
  /\ (RawQuery r <> "" -> Get (header w') "Location" = "./?" +:+ RawQuery r)
  /\ body w' = ""
  /\ (forall root' : FileSystem, fst (ServeHTTP root' (newResponse h) r) = w').
Proof.
  intros H w'. subst w'. rewrite ServeHTTP_index by exact H. cbn [fst].
  repeat split.
  - intros Hq. unfold Get. cbn [header]. rewrite lookup_insert_eq.
    unfold querySuffix. rewrite Hq. reflexivity.
  - intros Hq. unfold Get. cbn [header]. rewrite lookup_insert_eq.
    unfold querySuffix. apply String.eqb_neq in Hq. rewrite Hq. reflexivity.
  - intros root'. now rewrite ServeHTTP_index.
Qed.

(** C10.  For every request whose URL path ends in [/index.html] the
    redirect is issued before the file system is consulted: [Open] is not
    called, so whatever the file system would have answered (the file or an
    ancestor missing, access denied, any failure) the status is 301 and never
    404, 403 or 500. *)
Theorem index_redirect_before_open (root : FileSystem) (h : Header) (r : Request) :
  strings.HasSuffix (Path r) indexPage = true ->
  let out := ServeHTTP root (newResponse h) r in
  snd out = root
  /\ opened (snd out) = opened root
  /\ status (fst out) = Some StatusMovedPermanently
  /\ status (fst out) <> Some StatusNotFound
  /\ status (fst out) <> Some StatusForbidden
  /\ status (fst out) <> Some StatusInternalServerError.
Proof.
  intros H out. subst out. rewrite ServeHTTP_index by exact H.
  cbn [fst snd status]. repeat split; discriminate.
Qed.


(** ** Error responses *)


(** ** The not-modified response *)

Lemma writeNotModified_new (h : Header) :
  writeNotModified (newResponse h)
  = {| header :=
         if negb (Get h "Etag" =? "")
         then delete "Last-Modified" (delete "Content-Length" (delete "Content-Type" h))
         else delete "Content-Length" (delete "Content-Type" h);
       status := Some StatusNotModified; body := "" |}.
Proof.
  unfold writeNotModified, delHeader, WriteHeader, newResponse. cbn.
  replace (Get (delete "Content-Length" (delete "Content-Type" h)) "Etag")
    with (Get h "Etag") by (symmetry; get_header).
  destruct (negb _); reflexivity.
Qed.

(** C8.  When a directory is requested under its canonical path, the
    entry settled on is a directory (the requested one, when it has no
    index page) and the conditional check against that directory's own
    modification time gives [condFalse] (the outcome the spec calls
    satisfied), the handler answers 304 Not Modified and writes no body.
    Of the response headers it removes [Content-Type] and [Content-Length];
    it removes [Last-Modified] when [Etag] is present with a value, and
    leaves it as it was otherwise, in particular when there is no [Etag];
    every other header is as it was. *)
Theorem not_modified_response (root : FileSystem) (h : Header) (r : Request)
        (f : File) (d : FileInfo) :
  let p := urlPath r in
  let name := path.Clean p in
  strings.HasSuffix p indexPage = false ->
  endsInSlash p = true ->
  files root name = Ok f ->
  Stat f = Ok d ->
  IsDir d = true ->
  let d' := fst (settled root name d f) in
  IsDir d' = true ->
  checkIfModifiedSince r (ModTime d') = condFalse ->
  let w' := fst (ServeHTTP root (newResponse h) r) in
  status w' = Some StatusNotModified
  /\ body w' = ""
  /\ header w' !! "Content-Type" = None
  /\ header w' !! "Content-Length" = None
  /\ (Get h "Etag" <> "" -> header w' !! "Last-Modified" = None)
  /\ (Get h "Etag" = "" -> header w' !! "Last-Modified" = h !! "Last-Modified")
  /\ (h !! "Etag" = None -> header w' !! "Last-Modified" = h !! "Last-Modified")
  /\ (forall k : string,
        k <> "Content-Type" -> k <> "Content-Length" -> k <> "Last-Modified" ->
        header w' !! k = h !! k).
Proof.
  intros p name Hidx Hend Hf Hd Hdir d' Hdir' Hcond w'. subst w' d' name p.
  rewrite (ServeHTTP_settled root _ r f d) by assumption.
  unfold deliver. rewrite Hdir', checkIfModifiedSince_setPath, Hcond.
  rewrite writeNotModified_new. cbn [status body header].
  assert (Hnone : h !! "Etag" = None -> Get h "Etag" = "")
    by (unfold Get; now intros ->).
  destruct (String.eqb_spec (Get h "Etag") "") as [He|He]; cbn [negb];
    repeat split; intros; try congruence;
    rewrite ?lookup_delete_eq; try reflexivity;
    rewrite ?lookup_delete_ne by congruence; try reflexivity;
    rewrite ?lookup_delete_eq; try reflexivity.
  all: exfalso; auto.
Qed.

(** ** Canonical requests *)

Lemma lookup_Location_Error (w : ResponseWriter) (msg : string) (code : Z) :
  header (Error w msg code) !! "Location" = header w !! "Location".
Proof. cbn. unfold Set_. now rewrite !lookup_insert_ne by discriminate. Qed.

Lemma status_Error_new (h : Header) (msg : string) (code : Z) :
  status (Error (newResponse h) msg code) = Some code.
Proof. reflexivity. Qed.

Lemma lookup_Location_setLastModified (w : ResponseWriter) (t : time.Time) :
  header (setLastModified w t) !! "Location" = header w !! "Location".
Proof.
  unfold setLastModified. destruct (negb _); [|reflexivity].
  cbn. unfold Set_. now rewrite lookup_insert_ne by discriminate.
Qed.

Lemma dirList_no_redirect (w : ResponseWriter) (r : Request) (f : File) :
  status w = None ->
  (status (dirList w r f) = Some StatusOK
   \/ status (dirList w r f) = Some StatusInternalServerError)
  /\ header (dirList w r f) !! "Location" = header w !! "Location".
Proof.
  intros Hs. unfold dirList. destruct (Readdir f) as [dirs|err].
  - rewrite fold_Write_anchor.
    rewrite (fold_Write _ _ StatusOK) by (cbn; now rewrite Hs).
    cbn. split; [now left|]. unfold Set_.
    now rewrite lookup_insert_ne by discriminate.
  - rewrite lookup_Location_Error. split; [right|reflexivity].
    cbn. now rewrite Hs.
Qed.

Lemma deliver_no_redirect (h : Header) (r : Request) (d : FileInfo) (f : File) :
  notRedirected h r (deliver (newResponse h) (setPath r (urlPath r)) d f).
Proof.
  unfold deliver, notRedirected. destruct (IsDir d); [right|left; eauto].
  destruct (checkIfModifiedSince _ _).
  3: { rewrite writeNotModified_new. cbn. split; [tauto|].
       destruct (negb _); now rewrite !lookup_delete_ne by discriminate. }
  all: pose proof (setLastModified_status (newResponse h) (ModTime d))
         as [Hs _];
       destruct (dirList_no_redirect (setLastModified (newResponse h) (ModTime d))
                   (setPath r (urlPath r)) f Hs) as [[Hst|Hst] Hloc];
       rewrite Hst, Hloc, lookup_Location_setLastModified; cbn; tauto.
Qed.

(** C9 (amended).  For every request that is already canonical, that is
    whose path does not end in [/index.html] and ends in a slash exactly
    when its entry is a directory, the handler issues no redirect: the
    response is either the one of [http.ServeContent], or has a status
    among 200, 304, 403, 404 and 500 and the [Location] header untouched.
    (Nothing is said here of how many redirects lead from an arbitrary
    request to a canonical one.) *)
Theorem canonical_no_redirect (root : FileSystem) (h : Header) (r : Request) :
  let p := urlPath r in
  strings.HasSuffix p indexPage = false ->
  (forall (f : File) (d : FileInfo),
      files root (path.Clean p) = Ok f -> Stat f = Ok d ->
      endsInSlash p = IsDir d) ->
  notRedirected h r (fst (ServeHTTP root (newResponse h) r)).
Proof.
  intros p Hidx Hcanon. subst p.
  destruct (files root (path.Clean (urlPath r))) as [f|err] eqn:Hf.
  2: { rewrite (ServeHTTP_open_error root _ r err) by assumption. cbn [fst].
       right. rewrite lookup_Location_Error, status_Error_new. split; [|reflexivity].
       unfold toHTTPError. destruct (os.IsNotExist err), (os.IsPermission err);
         cbn; tauto. }
  destruct (Stat f) as [d|err] eqn:Hd.
  2: { rewrite (ServeHTTP_stat_error root _ r f err) by assumption. cbn [fst].
       right. rewrite lookup_Location_Error, status_Error_new. split; [|reflexivity].
       unfold toHTTPError. destruct (os.IsNotExist err), (os.IsPermission err);
         cbn; tauto. }
  specialize (Hcanon f d eq_refl Hd).
  destruct (IsDir d) eqn:Hdir.
  - rewrite (ServeHTTP_listing root _ r f d) by assumption.
    destruct (useIndex _ _ _ _) as [[[name' d'] f'] fs]. cbn [fst].
    apply deliver_no_redirect.
  - rewrite (ServeHTTP_file root _ r f d) by assumption. cbn [fst].
    left. eauto.
Qed.

(** ** Directory listings *)





(** ** Anchors *)

Lemma lookupByte_entityOf (c : ascii) :
  strings.lookupByte htmlReplacer c = entityOf c.
Proof. destruct c as [[] [] [] [] [] [] [] []]; reflexivity. Qed.

Lemma Replace_escapeHTML (s : string) :
  strings.Replace htmlReplacer s = escapeHTML s.
Proof.
  induction s as [|c s IH]; [reflexivity|].
  cbn [strings.Replace escapeHTML]. now rewrite IH, lookupByte_entityOf.
Qed.

Lemma entityOf_special (c : ascii) :
  entityOf c <> String c "" <-> In c htmlSpecial.
Proof.
  destruct c as [[] [] [] [] [] [] [] []]; cbn; split;
    try congruence; try tauto; intros H;
    repeat (destruct H as [H|H]; try discriminate H); try contradiction.
Qed.

Lemma escapeByte_safe (c x : ascii) :
  In x (url.escapeByte c) -> x <> "?"%char /\ x <> "#"%char.
Proof.
  destruct c as [[] [] [] [] [] [] [] []]; cbn;
    intros H; repeat (destruct H as [H|H]; [subst x; split; discriminate|]);
    contradiction.
Qed.

Lemma String_escape (name : string) :
  name <> "*" ->
  url.String_ name = url.escape name
  \/ url.String_ name = "./" +:+ url.escape name.
Proof.
  intros Hn. unfold url.String_, url.EscapedPath.
  apply String.eqb_neq in Hn. rewrite Hn.
  destruct (url.hasColon _); auto.
Qed.

Lemma String_safe (name : string) (x : ascii) :
  In x (bytes (url.String_ name)) -> x <> "?"%char /\ x <> "#"%char.
Proof.
  assert (Hesc : In x (bytes (url.escape name)) -> x <> "?"%char /\ x <> "#"%char).
  { unfold url.escape. rewrite bytes_str, in_flat_map.
    intros (c & _ & Hx). eapply escapeByte_safe, Hx. }
  destruct (String.eqb_spec name "*") as [->|Hn].
  - cbn. intros [<-|[]]. split; discriminate.
  - destruct (String_escape name Hn) as [->| ->]; [exact Hesc|].
    rewrite bytes_app, in_app_iff. intros [H|H]; [|auto].
    cbn in H. destruct H as [<-|[<-|[]]]; split; discriminate.
Qed.

(** C7.  In a listing each entry is an anchor.  The name shown is the
    entry's name, followed by a slash for a directory.  The visible text is
    that name with exactly the five characters [&], [<], [>], the double
    quote and the single quote replaced by entities, so [a&<b>.txt] reads
    [a&amp;&lt;b&gt;.txt].  The [href] is that name escaped as a URL path
    (after [./] when needed to keep it a relative path): [&] stays as it
    is, [?] and [#] become [%3F] and [%23], and no [?] or [#] is left in
    it. *)
Theorem anchor_escaping (d : FileInfo) :
  let name := shownName d in
  name = Name d +:+ (if IsDir d then "/" else "")
  /\ anchor d
     = "<a href=" +:+ DQ +:+ url.String_ name +:+ DQ +:+ ">"
         +:+ escapeHTML name +:+ "</a>" +:+ LF
  /\ (forall c : ascii, entityOf c <> String c "" <-> In c htmlSpecial)
  /\ escapeHTML "a&<b>.txt" = "a&amp;&lt;b&gt;.txt"
  /\ (name <> "*" ->
      url.String_ name = url.escape name
      \/ url.String_ name = "./" +:+ url.escape name)
  /\ url.escape "&" = "&"
  /\ url.escape "?" = "%3F"
  /\ url.escape "#" = "%23"
  /\ url.String_ "a&<b>.txt" = "a&%3Cb%3E.txt"
  /\ (forall x : ascii,
        In x (bytes (url.String_ name)) -> x <> "?"%char /\ x <> "#"%char).
Proof.
  cbv zeta. split; [|split; [|split; [|split; [|split]]]].
  - unfold shownName. destruct (IsDir d); [reflexivity|].
    now rewrite app_nil_r_str.
  - unfold anchor. now rewrite Replace_escapeHTML.
  - apply entityOf_special.
  - reflexivity.
  - apply String_escape.
  - do 4 (split; [reflexivity|]). apply String_safe.
Qed.

(** ** The paths handed to the file system *)

Lemma useIndex_opened (fs : FileSystem) (name : string) (d : FileInfo) (f : File) :
  opened (snd (useIndex fs name d f)) = opened fs ++ [indexName name].
Proof.
  unfold useIndex, Open, indexName.
  destruct (files fs _) as [ff|]; [destruct (Stat ff)|]; reflexivity.
Qed.

Lemma serveFile_opened (w : ResponseWriter) (r : Request) (fs : FileSystem)
      (name : string) (redirect : bool) :
  exists names : list string,
    opened (snd (serveFile w r fs name redirect)) = opened fs ++ names
    /\ forall n, In n names -> n = name \/ n = indexName name.
Proof.
  unfold serveFile, Open.
  destruct (strings.HasSuffix (Path r) indexPage).
  { exists []. cbn. rewrite app_nil_r. split; [reflexivity|contradiction]. }
  destruct (files fs name) as [f|err].
  2: { exists [name]. destruct (toHTTPError err). cbn. split; [reflexivity|intros n Hin; cbn in Hin; intuition (subst; auto)]. }
  destruct (Stat f) as [d|err].
  2: { exists [name]. destruct (toHTTPError err). cbn. split; [reflexivity|intros n Hin; cbn in Hin; intuition (subst; auto)]. }
  destruct (canonicalRedirect redirect d (Path r)).
  { exists [name]. cbn. split; [reflexivity|intros n Hin; cbn in Hin; intuition (subst; auto)]. }
  destruct (IsDir d && _).
  { exists [name]. cbn. split; [reflexivity|intros n Hin; cbn in Hin; intuition (subst; auto)]. }
  destruct (IsDir d).
  - exists [name; indexName name].
    pose proof (useIndex_opened (logOpen fs name) name d f) as Ho.
    destruct (useIndex _ _ _ _) as [[[name' d'] f'] fs']. cbn [snd] in *.
    rewrite Ho. cbn. rewrite <- app_assoc. split; [reflexivity|intros n Hin; cbn in Hin; intuition (subst; auto)].
  - exists [name]. cbn. split; [reflexivity|intros n Hin; cbn in Hin; intuition (subst; auto)].
Qed.

(** C6.  Whatever the raw request path, every path the handler hands to
    [Open] starts with a slash and is lexically clean: it is [/], or a
    sequence of elements each after one slash, none of them empty (no
    doubled or trailing slash), [.] or [..]; [path.Clean] leaves it as it
    is.  The only paths opened are the cleaned request path and the name of
    the index page under it. *)
Theorem opened_paths_clean (root : FileSystem) (w : ResponseWriter) (r : Request) :
  exists names : list string,
    opened (snd (ServeHTTP root w r)) = opened root ++ names
    /\ (forall n, In n names ->
          n = path.Clean (urlPath r) \/ n = indexName (path.Clean (urlPath r)))
    /\ Forall (fun n => strings.HasPrefix n "/" = true
                        /\ CleanRooted n
                        /\ path.Clean n = n) names.
Proof.
  rewrite ServeHTTP_serveFile.
  destruct (serveFile_opened w (setPath r (urlPath r)) root
              (path.Clean (urlPath r)) true) as (names & Ho & Hn).
  exists names. split; [exact Ho|]. split; [exact Hn|].
  apply Forall_forall. intros n Hin. apply list_elem_of_In in Hin.
  assert (Hc : CleanRooted n).
  { destruct (urlPath_rooted r) as [rest Hr].
    destruct (Hn n Hin) as [->| ->]; rewrite Hr;
      [|apply indexName_clean]; apply Clean_rooted. }
  auto using CleanRooted_prefix, Clean_clean.
Qed.

(** ** More of the handler *)

Lemma Base_no_slash (p : string) :
  path.Base p = "/" \/ ~ In slash (bytes (path.Base p)).
Proof.
  unfold path.Base. destruct (p =? ""); [right|].
  - cbn. unfold slash. intros [H|[]]; discriminate H.
  - destruct (path.untilSlash _) as [|c l] eqn:Hu; [now left|right].
    rewrite bytes_str, <- in_rev, <- Hu. apply untilSlash_no_slash.
Qed.

(** The redirect of a request for a regular file, with a final slash. *)
Lemma ServeHTTP_file_slash (root : FileSystem) (h : Header) (r : Request)
      (f : File) (d : FileInfo) :
  strings.HasSuffix (urlPath r) indexPage = false ->
  endsInSlash (urlPath r) = true ->
  files root (path.Clean (urlPath r)) = Ok f ->
  Stat f = Ok d ->
  IsDir d = false ->
  ServeHTTP root (newResponse h) r
  = ({| header :=
          <["Location" := ["../" +:+ path.Base (urlPath r) +:+ querySuffix r]]> h;
        status := Some StatusMovedPermanently; body := "" |},
     logOpen root (path.Clean (urlPath r))).
Proof.
  intros Hidx Hend Hf Hd Hdir.
  rewrite ServeHTTP_serveFile. unfold serveFile, Open, canonicalRedirect.
  cbn [Path setPath]. rewrite Hidx, Hf, Hd, Hdir, Hend.
  rewrite localRedirect_new, querySuffix_setPath.
  now rewrite <- (app_assoc_str "../").
Qed.

(** X1.  For every request whose path ends in a slash, but not in
    [/index.html], and whose entry is a regular file, the handler answers
    301 Moved Permanently without a body, with [Location] set to [../]
    followed by the last element of the path and by [?] and the raw query
    when there is one; that element holds no slash, unless the path is
    made of slashes only.  The file is opened once and nothing else is. *)
Theorem file_slash_redirect (root : FileSystem) (h : Header) (r : Request)
        (f : File) (d : FileInfo) :
  let p := urlPath r in
  strings.HasSuffix p indexPage = false ->
  endsInSlash p = true ->
  files root (path.Clean p) = Ok f ->
  Stat f = Ok d ->
  IsDir d = false ->
  let out := ServeHTTP root (newResponse h) r in
  status (fst out) = Some StatusMovedPermanently
  /\ body (fst out) = ""
  /\ header (fst out)
     = <["Location" := ["../" +:+ path.Base p +:+ querySuffix r]]> h
  /\ (path.Base p = "/" \/ ~ In slash (bytes (path.Base p)))
  /\ opened (snd out) = opened root ++ [path.Clean p].
Proof.
  intros p Hidx Hend Hf Hd Hdir out. subst out p.
  rewrite (ServeHTTP_file_slash root h r f d) by assumption. cbn [fst snd].
  repeat split. apply Base_no_slash.
Qed.


(** X3.  When a directory requested under its canonical path holds an
    [index.html] that can be opened and examined and is a regular file, the
    handler hands the response writer, untouched, to [http.ServeContent]
    with the name, the modification time and the handle of the index page;
    it has opened the directory and then the index page. *)
Theorem index_page_served (root : FileSystem) (w : ResponseWriter) (r : Request)
        (f ff : File) (d dd : FileInfo) :
  let p := urlPath r in
  let name := path.Clean p in
  strings.HasSuffix p indexPage = false ->
  endsInSlash p = true ->
  files root name = Ok f ->
  Stat f = Ok d ->
  IsDir d = true ->
  files root (indexName name) = Ok ff ->
  Stat ff = Ok dd ->
  IsDir dd = false ->
  let out := ServeHTTP root w r in
  fst out = ServeContent w (setPath r p) (Name dd) (ModTime dd) ff
  /\ opened (snd out) = opened root ++ [name; indexName name].
Proof.
  intros p name Hidx Hend Hf Hd Hdir Hff Hdd Hreg out. subst out name p.
  rewrite (ServeHTTP_listing root w r f d) by assumption.
  unfold useIndex, Open. fold (indexName (path.Clean (urlPath r))).
  rewrite files_logOpen, Hff, Hdd. cbn [fst snd].
  unfold deliver. rewrite Hreg. split; [reflexivity|].
  cbn. now rewrite <- app_assoc.
Qed.

Lemma deliver_dir_status (h : Header) (r : Request) (d : FileInfo) (f : File) :
  IsDir d = true ->
  In (status (deliver (newResponse h) r d f))
     [Some StatusOK; Some StatusNotModified; Some StatusInternalServerError].
Proof.
  intros Hdir. unfold deliver. rewrite Hdir.
  destruct (checkIfModifiedSince r (ModTime d)).
  3: { rewrite writeNotModified_new. cbn. tauto. }
  all: pose proof (setLastModified_status (newResponse h) (ModTime d)) as [Hs _];
       destruct (dirList_no_redirect (setLastModified (newResponse h) (ModTime d))
                   r f Hs) as [[Hst|Hst] _]; rewrite Hst; cbn; tauto.
Qed.

(** X4.  A failure to open [index.html] under a directory, or to examine
    it once open, is ignored whatever the error: the directory is served as
    if it had no index page, and the status is one of 200, 304 and 500,
    never the 403 or 404 the error would map to. *)
Theorem index_failure_ignored (root : FileSystem) (h : Header) (r : Request)
        (f : File) (d : FileInfo) (err : os.error) :
  let p := urlPath r in
  let name := path.Clean p in
  strings.HasSuffix p indexPage = false ->
  endsInSlash p = true ->
  files root name = Ok f ->
  Stat f = Ok d ->
  IsDir d = true ->
  files root (indexName name) = Err err
  \/ (exists ff, files root (indexName name) = Ok ff /\ Stat ff = Err err) ->
  let w' := fst (ServeHTTP root (newResponse h) r) in
  w' = deliver (newResponse h) (setPath r p) d f
  /\ In (status w')
        [Some StatusOK; Some StatusNotModified; Some StatusInternalServerError]
  /\ status w' <> Some StatusForbidden
  /\ status w' <> Some StatusNotFound.
Proof.
  intros p name Hidx Hend Hf Hd Hdir Hix w'. subst w' name p.
  rewrite (ServeHTTP_listing root _ r f d) by assumption.
  assert (Hu : fst (useIndex (logOpen root (path.Clean (urlPath r)))
                      (path.Clean (urlPath r)) d f)
               = (path.Clean (urlPath r), d, f)).
  { unfold useIndex, Open. fold (indexName (path.Clean (urlPath r))).
    rewrite files_logOpen.
    destruct Hix as [-> |(ff & -> & ->)]; reflexivity. }
  destruct (useIndex _ _ _ _) as [[[name' d'] f'] fs]. cbn [fst] in Hu.
  injection Hu as -> -> ->. cbn [fst].
  pose proof (deliver_dir_status h (setPath r (urlPath r)) d f Hdir) as Hs.
  split; [reflexivity|]. split; [exact Hs|].
  split; intros Heq; rewrite Heq in Hs; cbn in Hs;
    repeat (destruct Hs as [Hs|Hs]; [discriminate Hs|]); exact Hs.
Qed.

Lemma dirList_error_new (w : ResponseWriter) (r : Request) (f : File)
      (err : os.error) :
  status w = None -> body w = "" ->
  Readdir f = Err err ->
  dirList w r f
  = {| header := <["X-Content-Type-Options" := ["nosniff"]]>
                   (<["Content-Type" := ["text/plain; charset=utf-8"]]> (header w));
       status := Some StatusInternalServerError;
       body := "Error reading directory" +:+ LF |}.
Proof.
  intros Hs Hb Hr. rewrite (dirList_error _ _ _ err) by exact Hr.
  unfold Error, Write, WriteHeader, setHeader. cbn. now rewrite Hs, Hb.
Qed.

(** X5.  The handler sets [Last-Modified] before it reads the directory:
    when a directory is listed, and also when reading it fails, the
    response carries [Last-Modified] with the formatted modification time
    of the directory if that time is specified, and leaves the header as
    it was if the time is the zero value or the Unix epoch. *)
Theorem listing_last_modified (root : FileSystem) (h : Header) (r : Request)
        (f : File) (d : FileInfo) :
  let p := urlPath r in
  let name := path.Clean p in
  strings.HasSuffix p indexPage = false ->
  endsInSlash p = true ->
  files root name = Ok f ->
  Stat f = Ok d ->
  IsDir d = true ->
  let d' := fst (settled root name d f) in
  let f' := snd (settled root name d f) in
  IsDir d' = true ->
  checkIfModifiedSince r (ModTime d') <> condFalse ->
  let w' := fst (ServeHTTP root (newResponse h) r) in
  let dated :=
    if isZeroTime (ModTime d') then h
    else <["Last-Modified" := [formatTime (ModTime d')]]> h in
  match Readdir f' with
  | Ok _ =>
      status w' = Some StatusOK
      /\ header w' = <["Content-Type" := ["text/html; charset=utf-8"]]> dated
  | Err _ =>
      status w' = Some StatusInternalServerError
      /\ header w'
         = <["X-Content-Type-Options" := ["nosniff"]]>
             (<["Content-Type" := ["text/plain; charset=utf-8"]]> dated)
  end.
Proof.
  intros p name Hidx Hend Hf Hd Hdir d' f' Hdir' Hcond w' dated.
  subst dated w' d' f' name p.
  rewrite (ServeHTTP_settled root _ r f d) by assumption.
  destruct (settled root _ d f) as [d' f']. cbn [fst snd] in *.
  rewrite deliver_listing by assumption.
  destruct (setLastModified_status (newResponse h) (ModTime d')) as [Hs Hb].
  assert (Hh : header (setLastModified (newResponse h) (ModTime d'))
               = if isZeroTime (ModTime d') then h
                 else <["Last-Modified" := [formatTime (ModTime d')]]> h).
  { unfold setLastModified. destruct (isZeroTime (ModTime d')); reflexivity. }
  destruct (Readdir f') as [dirs|err] eqn:Hr.
  - rewrite (dirList_ok _ _ _ dirs) by assumption. cbn [status header].
    now rewrite Hh.
  - rewrite (dirList_error_new _ _ _ err) by assumption. cbn [status header].
    now rewrite Hh.
Qed.

Lemma checkIfModifiedSince_condNone (r : Request) (t : time.Time) :
  (Method r <> "GET" /\ Method r <> "HEAD")
  \/ Get (ReqHeader r) "If-Modified-Since" = ""
  \/ isZeroTime t = true ->
  checkIfModifiedSince r t = condNone.
Proof.
  rewrite checkIfModifiedSince_cases.
  intros [[Hg Hh]|[He|Hz]].
  - apply String.eqb_neq in Hg, Hh. now rewrite Hg, Hh.
  - rewrite He. cbn. now rewrite andb_false_r.
  - rewrite Hz. cbn. now rewrite andb_false_r.
Qed.

(** X6.  A request for a directory is never answered 304 Not Modified when
    its method is neither GET nor HEAD, or it has no [If-Modified-Since]
    header, or the modification time of the directory is the zero value or
    the Unix epoch: the directory is read, and the status is 200, or 500
    when reading fails. *)
Theorem directory_always_listed (root : FileSystem) (h : Header) (r : Request)
        (f : File) (d : FileInfo) :
  let p := urlPath r in
  let name := path.Clean p in
  strings.HasSuffix p indexPage = false ->
  endsInSlash p = true ->
  files root name = Ok f ->
  Stat f = Ok d ->
  IsDir d = true ->
  let d' := fst (settled root name d f) in
  let f' := snd (settled root name d f) in
  IsDir d' = true ->
  (Method r <> "GET" /\ Method r <> "HEAD")
  \/ Get (ReqHeader r) "If-Modified-Since" = ""
  \/ isZeroTime (ModTime d') = true ->
  let w' := fst (ServeHTTP root (newResponse h) r) in
  status w' <> Some StatusNotModified
  /\ match Readdir f' with
     | Ok dirs =>
         status w' = Some StatusOK
         /\ body w' = listing (sortSlice lessName dirs)
     | Err _ => status w' = Some StatusInternalServerError
     end.
Proof.
  intros p name Hidx Hend Hf Hd Hdir d' f' Hdir' Hnone w'.
  subst w' d' f' name p.
  rewrite (ServeHTTP_settled root _ r f d) by assumption.
  destruct (settled root _ d f) as [d' f']. cbn [fst snd] in *.
  apply checkIfModifiedSince_condNone in Hnone.
  rewrite deliver_listing by (assumption || (rewrite Hnone; discriminate)).
  destruct (setLastModified_status (newResponse h) (ModTime d')) as [Hs Hb].
  destruct (Readdir f') as [dirs|err] eqn:Hr.
  - rewrite (dirList_ok _ _ _ dirs) by assumption. cbn [status body].
    split; [discriminate|]. split; reflexivity.
  - rewrite (dirList_error_new _ _ _ err) by assumption. cbn [status].
    split; [discriminate|reflexivity].
Qed.

(** X7.  [checkIfModifiedSince] ignores the part of the modification time
    below a second: two modification times that are both specified and lie
    in the same second give the same result for every request. *)
Theorem checkIfModifiedSince_same_second (r : Request) (t1 t2 : time.Time) :
  isZeroTime t1 = false ->
  isZeroTime t2 = false ->
  (time.ns t1 / time.Second = time.ns t2 / time.Second)%Z ->
  checkIfModifiedSince r t1 = checkIfModifiedSince r t2.
Proof.
  intros H1 H2 Hsec. rewrite !checkIfModifiedSince_cases, H1, H2.
  assert (Ht : time.ns (time.Truncate t1 time.Second)
               = time.ns (time.Truncate t2 time.Second)).
  { unfold time.Truncate, time.Second in *. cbn.
    rewrite (Z.mod_eq (time.ns t1)), (Z.mod_eq (time.ns t2)) by lia.
    rewrite Hsec. lia. }
  now rewrite Ht.
Qed.

(** *** A final slash does not change what [Clean] returns *)

Lemma untilSlash_snoc (l : list ascii) :
  path.untilSlash (l ++ [slash]) = path.untilSlash l.
Proof.
  induction l as [|c l IH]; [reflexivity|]. cbn [app path.untilSlash].
  destruct (Ascii.eqb c slash); [reflexivity|]. now rewrite IH.
Qed.

Lemma fromSlash_snoc (l : list ascii) :
  path.fromSlash (l ++ [slash]) = path.fromSlash l ++ [slash].
Proof.
  induction l as [|c l IH]; [reflexivity|]. cbn [app path.fromSlash].
  destruct (Ascii.eqb c slash); [reflexivity|]. exact IH.
Qed.

Lemma elemEnds_snoc (l : list ascii) :
  path.elemEnds (l ++ [slash]) = path.elemEnds l.
Proof. destruct l; reflexivity. Qed.

Lemma cleanLoop_cons (fuel : nat) (rooted : bool) (c : ascii)
      (rest1 out : list ascii) (dotdot : nat) :
  path.cleanLoop (S fuel) rooted (c :: rest1) out dotdot
  = if Ascii.eqb c slash then path.cleanLoop fuel rooted rest1 out dotdot
    else if path.isDot c rest1 then path.cleanLoop fuel rooted rest1 out dotdot
    else if path.isDotDot c rest1 then
      if (dotdot <? length out)%nat then
        match out with
        | c0 :: out' =>
            path.cleanLoop fuel rooted (tl rest1)
              (path.backtrack dotdot c0 out') dotdot
        | [] => path.cleanLoop fuel rooted (tl rest1) out dotdot
        end
      else if negb rooted then
        path.cleanLoop fuel rooted (tl rest1)
          (dot :: dot :: (if (0 <? length out)%nat then slash :: out else out))
          (length
             (dot :: dot :: (if (0 <? length out)%nat then slash :: out else out)))
      else path.cleanLoop fuel rooted (tl rest1) out dotdot
    else
      path.cleanLoop fuel rooted (path.fromSlash (c :: rest1))
        (rev (path.untilSlash (c :: rest1))
         ++ (if rooted && negb (length out =? 1)%nat
                || negb rooted && negb (length out =? 0)%nat
             then slash :: out else out))
        dotdot.
Proof. cbn [path.cleanLoop]. now rewrite copyElem_spec. Qed.

Lemma isDot_snoc (c : ascii) (rest1 : list ascii) :
  path.isDot c (rest1 ++ [slash]) = path.isDot c rest1.
Proof. unfold path.isDot. now rewrite elemEnds_snoc. Qed.

Lemma isDotDot_snoc (c : ascii) (rest1 : list ascii) :
  path.isDotDot c (rest1 ++ [slash]) = path.isDotDot c rest1.
Proof.
  unfold path.isDotDot. destruct rest1 as [|c1 rest2]; cbn [app].
  - now rewrite !andb_false_r.
  - now rewrite elemEnds_snoc.
Qed.

Lemma cleanLoop_snoc (fuel : nat) (rooted : bool) (rest out : list ascii)
      (dotdot : nat) :
  length rest <= fuel ->
  path.cleanLoop (S fuel) rooted (rest ++ [slash]) out dotdot
  = path.cleanLoop fuel rooted rest out dotdot.
Proof.
  revert rest out dotdot.
  induction fuel as [|fuel IH]; intros rest out dotdot Hlen.
  - destruct rest; [reflexivity|cbn in Hlen; lia].
  - destruct rest as [|c rest1]; [reflexivity|]. cbn [length] in Hlen.
    change ((c :: rest1) ++ [slash]) with (c :: (rest1 ++ [slash])).
    rewrite (cleanLoop_cons (S fuel)), (cleanLoop_cons fuel).
    rewrite isDot_snoc, isDotDot_snoc.
    assert (Htl : length (tl rest1) <= fuel) by (destruct rest1; cbn in *; lia).
    destruct (Ascii.eqb c slash) eqn:Hs; [apply IH; lia|].
    destruct (path.isDot c rest1); [apply IH; lia|].
    destruct (path.isDotDot c rest1) eqn:Hdd.
    + assert (Ht : tl (rest1 ++ [slash]) = tl rest1 ++ [slash]).
      { destruct rest1; [|reflexivity].
        unfold path.isDotDot in Hdd. now rewrite andb_false_r in Hdd. }
      rewrite Ht.
      destruct (dotdot <? length out)%nat.
      * destruct out; apply IH; exact Htl.
      * destruct (negb rooted); apply IH; exact Htl.
    + change (c :: rest1 ++ [slash]) with ((c :: rest1) ++ [slash]).
      rewrite untilSlash_snoc, fromSlash_snoc. apply IH.
      cbn [path.fromSlash]. rewrite Hs.
      pose proof (fromSlash_length rest1). lia.
Qed.

Lemma Clean_slash (rest : string) :
  path.Clean (("/" +:+ rest) +:+ "/") = path.Clean ("/" +:+ rest).
Proof.
  unfold path.Clean. fold (bytes (("/" +:+ rest) +:+ "/")).
  fold (bytes ("/" +:+ rest)). rewrite bytes_app.
  change (bytes ("/" +:+ rest)) with (slash :: bytes rest).
  change (bytes "/") with [slash]. cbn [app tl length String.append String.eqb].
  rewrite Ascii.eqb_refl, length_app. cbn [length].
  rewrite Nat.add_1_r, cleanLoop_snoc by lia. reflexivity.
Qed.

Lemma HasSuffix_slash_index (s : string) :
  strings.HasSuffix (s +:+ "/") indexPage = false.
Proof.
  destruct (strings.HasSuffix _ _) eqn:H; [|reflexivity].
  apply HasSuffix_spec in H as [pre H].
  apply (f_equal lastByte) in H.
  change (pre +:+ indexPage) with (pre +:+ ("/index.htm" +:+ "l")) in H.
  rewrite <- app_assoc_str, !lastByte_app in H. discriminate H.
Qed.

(** X8.  The redirect of a directory request is final: when the request
    for [p] is redirected because [p] names a directory and lacks the
    final slash, the request for [p] followed by a slash opens the same
    entry, since [path.Clean] drops the final slash, and is answered
    without a redirect. *)
Theorem directory_redirect_final (root : FileSystem) (h : Header) (r : Request)
        (f : File) (d : FileInfo) :
  let p := urlPath r in
  strings.HasSuffix p indexPage = false ->
  endsInSlash p = false ->
  files root (path.Clean p) = Ok f ->
  Stat f = Ok d ->
  IsDir d = true ->
  let r' := setPath r (p +:+ "/") in
  urlPath r' = p +:+ "/"
  /\ path.Clean (urlPath r') = path.Clean p
  /\ notRedirected h r' (fst (ServeHTTP root (newResponse h) r')).
Proof.
  intros p Hidx Hend Hf Hd Hdir r'. subst p.
  destruct (urlPath_rooted r) as [rest Hp].
  assert (Hu : urlPath r' = urlPath r +:+ "/").
  { unfold urlPath at 1. subst r'. cbn [Path setPath].
    assert (Hpre : strings.HasPrefix (urlPath r +:+ "/") "/" = true).
    { apply HasPrefix_spec. exists (rest +:+ "/"). now rewrite Hp. }
    now rewrite Hpre. }
  assert (Hc : path.Clean (urlPath r +:+ "/") = path.Clean (urlPath r))
    by (rewrite Hp; apply Clean_slash).
  split; [exact Hu|]. split; [rewrite Hu; exact Hc|].
  assert (Hidx' : strings.HasSuffix (urlPath r') indexPage = false)
    by (rewrite Hu; apply HasSuffix_slash_index).
  assert (Hend' : endsInSlash (urlPath r') = true)
    by (rewrite Hu; apply endsInSlash_spec; eauto).
  assert (Hf' : files root (path.Clean (urlPath r')) = Ok f)
    by (rewrite Hu, Hc; exact Hf).
  clearbody r'.
  rewrite (ServeHTTP_listing root _ r' f d) by assumption.
  destruct (useIndex _ _ _ _) as [[[name' d'] f'] fs]. cbn [fst].
  apply deliver_no_redirect.
Qed.

Lemma useIndex_files (fs : FileSystem) (name : string) (d : FileInfo) (f : File) :
  files (snd (useIndex fs name d f)) = files fs.
Proof.
  unfold useIndex, Open.
  destruct (files fs _) as [ff|]; [destruct (Stat ff)|]; reflexivity.
Qed.

(** X9.  The handler calls [Open] at most twice, and changes nothing else
    of the file system: not at all when the path ends in [/index.html];
    otherwise with the cleaned path, and a second time, with the name of
    the index page, exactly when the entry is a directory requested with
    its final slash. *)
Theorem opens_at_most_twice (root : FileSystem) (w : ResponseWriter) (r : Request) :
  let p := urlPath r in
  let name := path.Clean p in
  let out := ServeHTTP root w r in
  exists names : list string,
    opened (snd out) = opened root ++ names
    /\ files (snd out) = files root
    /\ (names = [] \/ names = [name] \/ names = [name; indexName name])
    /\ (names = [] <-> strings.HasSuffix p indexPage = true)
    /\ (names = [name; indexName name] <->
        strings.HasSuffix p indexPage = false
        /\ endsInSlash p = true
        /\ exists f d, files root name = Ok f /\ Stat f = Ok d /\ IsDir d = true).
Proof.
  cbv zeta. rewrite ServeHTTP_serveFile. unfold serveFile, Open.
  cbn [Path setPath].
  destruct (strings.HasSuffix (urlPath r) indexPage) eqn:Hidx.
  { exists []. cbn [snd]. rewrite app_nil_r.
    repeat split; auto; try discriminate. intros (H & _); discriminate H. }
  destruct (files root (path.Clean (urlPath r))) as [f|err] eqn:Hf.
  2: { exists [path.Clean (urlPath r)]. destruct (toHTTPError err). cbn [snd].
       repeat split; auto; try discriminate.
       intros (_ & _ & f & d & H & _); discriminate H. }
  destruct (Stat f) as [d|err] eqn:Hd.
  2: { exists [path.Clean (urlPath r)]. destruct (toHTTPError err). cbn [snd].
       repeat split; auto; try discriminate.
       intros (_ & _ & f0 & d & H & H' & _). congruence. }
  unfold canonicalRedirect.
  destruct (IsDir d) eqn:Hdir, (endsInSlash (urlPath r)) eqn:Hend;
    cbn [negb andb orb].
  - destruct (String.eqb_spec (urlPath r) "") as [He|_];
      [now apply urlPath_nonempty in He|]. cbn [negb andb orb].
    exists [path.Clean (urlPath r); indexName (path.Clean (urlPath r))].
    pose proof (useIndex_opened (logOpen root (path.Clean (urlPath r)))
                  (path.Clean (urlPath r)) d f) as Ho.
    pose proof (useIndex_files (logOpen root (path.Clean (urlPath r)))
                  (path.Clean (urlPath r)) d f) as Hfs.
    destruct (useIndex _ _ _ _) as [[[name' d'] f'] fs']. cbn [snd] in *.
    rewrite Ho. cbn [opened logOpen]. rewrite <- app_assoc.
    repeat split; auto; try discriminate. eauto 6.
  - exists [path.Clean (urlPath r)]. cbn [snd].
    repeat split; auto; try discriminate. intros (_ & H & _); discriminate H.
  - exists [path.Clean (urlPath r)]. cbn [snd].
    repeat split; auto; try discriminate.
    intros (_ & _ & f0 & d0 & H & H' & H''). congruence.
  - exists [path.Clean (urlPath r)]. cbn [snd].
    repeat split; auto; try discriminate. intros (_ & H & _); discriminate H.
Qed.

Lemma ServeHTTP_index_url (root : FileSystem) (h : Header) (r : Request) :
  strings.HasSuffix (urlPath r) indexPage = true ->
  ServeHTTP root (newResponse h) r
  = ({| header := <["Location" := ["./" +:+ querySuffix r]]> h;
        status := Some StatusMovedPermanently; body := "" |}, root).
Proof.
  intros H. rewrite ServeHTTP_serveFile. unfold serveFile.
  cbn [Path setPath]. rewrite H. rewrite localRedirect_new. reflexivity.
Qed.

Lemma Error_no_redirect (h : Header) (r : Request) (err : os.error) :
  notRedirected h r
    (Error (newResponse h) (fst (toHTTPError err)) (snd (toHTTPError err))).
Proof.
  right. rewrite lookup_Location_Error, status_Error_new. split; [|reflexivity].
  unfold toHTTPError. destruct (os.IsNotExist err), (os.IsPermission err);
    cbn; tauto.
Qed.

(** X10.  Whatever the request and the file system, the response of the
    handler has one of two shapes.  Either it is no redirect of the
    handler: it is the response of [http.ServeContent], or its status is
    one of 200, 304, 403, 404 and 500 and [Location] is as it was.  Or it
    is a redirect: status 301, no body, every header but [Location] as it
    was, and [Location] one of [./], the last element of the path followed
    by a slash, and [../] followed by the last element of the path, each
    with [?] and the raw query when there is one. *)
Theorem response_shapes (root : FileSystem) (h : Header) (r : Request) :
  let p := urlPath r in
  let w' := fst (ServeHTTP root (newResponse h) r) in
  notRedirected h r w'
  \/ exists newPath : string,
       (newPath = "./" \/ newPath = path.Base p +:+ "/"
        \/ newPath = "../" +:+ path.Base p)
       /\ w' = {| header := <["Location" := [newPath +:+ querySuffix r]]> h;
                  status := Some StatusMovedPermanently; body := "" |}.
Proof.
  cbv zeta.
  destruct (strings.HasSuffix (urlPath r) indexPage) eqn:Hidx.
  { right. exists "./". rewrite ServeHTTP_index_url by exact Hidx. auto. }
  destruct (files root (path.Clean (urlPath r))) as [f|err] eqn:Hf.
  2: { left. rewrite (ServeHTTP_open_error root _ r err) by assumption.
       apply Error_no_redirect. }
  destruct (Stat f) as [d|err] eqn:Hd.
  2: { left. rewrite (ServeHTTP_stat_error root _ r f err) by assumption.
       apply Error_no_redirect. }
  destruct (IsDir d) eqn:Hdir, (endsInSlash (urlPath r)) eqn:Hend.
  - left. rewrite (ServeHTTP_listing root _ r f d) by assumption.
    destruct (useIndex _ _ _ _) as [[[name' d'] f'] fs]. cbn [fst].
    apply deliver_no_redirect.
  - right. exists (path.Base (urlPath r) +:+ "/").
    rewrite (ServeHTTP_directory root h r f d) by assumption. cbn [fst].
    rewrite app_assoc_str. auto.
  - right. exists ("../" +:+ path.Base (urlPath r)).
    rewrite (ServeHTTP_file_slash root h r f d) by assumption. cbn [fst].
    rewrite (app_assoc_str "../"). auto.
  - left. rewrite (ServeHTTP_file root _ r f d) by assumption. cbn [fst].
    left. eauto.
Qed.

(** *** No markup from an entry name *)

Lemma escapeByte_plain (c x : ascii) :
  In x (url.escapeByte c) ->
  ~ In x ["<"; ">"; "034"; "'"; " "]%char.
Proof.
  destruct c as [[] [] [] [] [] [] [] []]; cbn;
    intros H; repeat (destruct H as [H|H]; [subst x|]); try contradiction;
    intros H; repeat (destruct H as [H|H]; [discriminate H|]); contradiction.
Qed.

Lemma lookupByte_plain (c x : ascii) :
  In x (bytes (strings.lookupByte htmlReplacer c)) ->
  ~ In x ["<"; ">"; "034"; "'"]%char.
Proof.
  destruct c as [[] [] [] [] [] [] [] []]; cbn;
    intros H; repeat (destruct H as [H|H]; [subst x|]); try contradiction;
    intros H; repeat (destruct H as [H|H]; [discriminate H|]); contradiction.
Qed.

Lemma Replace_plain (s : string) (x : ascii) :
  In x (bytes (strings.Replace htmlReplacer s)) ->
  ~ In x ["<"; ">"; "034"; "'"]%char.
Proof.
  induction s as [|c s IH]; [intros []|].
  cbn [strings.Replace]. rewrite bytes_app, in_app_iff.
  intros [H|H]; [eapply lookupByte_plain, H|auto].
Qed.

Lemma String_plain (name : string) (x : ascii) :
  In x (bytes (url.String_ name)) ->
  ~ In x ["<"; ">"; "034"; "'"; " "]%char.
Proof.
  assert (Hesc : In x (bytes (url.escape name)) ->
                 ~ In x ["<"; ">"; "034"; "'"; " "]%char).
  { unfold url.escape. rewrite bytes_str, in_flat_map.
    intros (c & _ & Hx). eapply escapeByte_plain, Hx. }
  destruct (String.eqb_spec name "*") as [->|Hn].
  - cbn. intros [<-|[]] H.
    repeat (destruct H as [H|H]; [discriminate H|]). contradiction.
  - destruct (String_escape name Hn) as [->| ->]; [exact Hesc|].
    rewrite bytes_app, in_app_iff. intros [H|H]; [|auto].
    cbn in H. destruct H as [<-|[<-|[]]]; intros H;
      repeat (destruct H as [H|H]; [discriminate H|]); contradiction.
Qed.

(** X11.  The name of an entry cannot put markup into a listing: in the
    anchor of an entry, the [href] holds no [<], [>], double quote, single
    quote or space, and the visible text holds no [<], [>], double quote or
    single quote, whatever bytes the name is made of. *)
Theorem anchor_no_markup (d : FileInfo) :
  exists href text : string,
    anchor d
    = "<a href=" +:+ DQ +:+ href +:+ DQ +:+ ">" +:+ text +:+ "</a>" +:+ LF
    /\ (forall x, In x (bytes href) ->
                  ~ In x ["<"; ">"; "034"; "'"; " "]%char)
    /\ (forall x, In x (bytes text) -> ~ In x ["<"; ">"; "034"; "'"]%char).
Proof.
  exists (url.String_ (shownName d)),
         (strings.Replace htmlReplacer (shownName d)).
  split; [reflexivity|]. split.
  - intros x. apply String_plain.
  - intros x. apply Replace_plain.
Qed.

(** X12.  [checkIfModifiedSince] is monotone in the modification time: if
    it gives [condFalse] (not modified) for a modification time, it gives
    [condFalse] for every earlier modification time that is specified. *)
Theorem checkIfModifiedSince_earlier (r : Request) (t1 t2 : time.Time) :
  (time.ns t1 <= time.ns t2)%Z ->
  isZeroTime t1 = false ->
  checkIfModifiedSince r t2 = condFalse ->
  checkIfModifiedSince r t1 = condFalse.
Proof.
  intros Hle H1. rewrite !checkIfModifiedSince_cases, H1.
  destruct (_ || _); [|discriminate]. destruct (negb (_ =? _)); [|discriminate].
  destruct (isZeroTime t2); [discriminate|]. cbn [negb andb].
  destruct (ParseTime _) as [t|err]; [|discriminate].
  assert (Ht : (time.ns (time.Truncate t1 time.Second)
                <= time.ns (time.Truncate t2 time.Second))%Z).
  { unfold time.Truncate, time.Second. cbn.
    rewrite (Z.mod_eq (time.ns t1)), (Z.mod_eq (time.ns t2)) by lia.
    pose proof (Z.div_le_mono (time.ns t1) (time.ns t2) 1000000000
                  ltac:(lia) Hle). lia. }
  destruct (Z.leb_spec (time.ns (time.Truncate t2 time.Second)) (time.ns t));
    [|discriminate].
  destruct (Z.leb_spec (time.ns (time.Truncate t1 time.Second)) (time.ns t));
    [reflexivity|lia].
Qed.

(** X13.  [ServeHTTP] serves a path that does not start with a slash as
    the same path after a slash: the response and the files opened are
    those of the request whose path already has the slash, which in turn
    is a request [ServeHTTP] leaves as it is. *)
Theorem ServeHTTP_leading_slash (root : FileSystem) (w : ResponseWriter)
        (r : Request) :
  let r' := setPath r ("/" +:+ Path r) in
  (strings.HasPrefix (Path r) "/" = false -> ServeHTTP root w r = ServeHTTP root w r')
  /\ ServeHTTP root w r'
     = serveFile w r' root (path.Clean ("/" +:+ Path r)) true.
Proof.
  cbv zeta.
  assert (Hr : urlPath (setPath r ("/" +:+ Path r)) = "/" +:+ Path r).
  { unfold urlPath. cbn [Path setPath].
    assert (H : strings.HasPrefix ("/" +:+ Path r) "/" = true)
      by (apply HasPrefix_spec; eauto).
    now rewrite H. }
  assert (Hs : setPath (setPath r ("/" +:+ Path r)) ("/" +:+ Path r)
               = setPath r ("/" +:+ Path r)) by reflexivity.
  split.
  - intros H. rewrite !ServeHTTP_serveFile, Hr, Hs.
    unfold urlPath. now rewrite H.
  - now rewrite ServeHTTP_serveFile, Hr, Hs.
Qed.

End Handler.

(** * The properties on the test doubles *)

(** ** Insertion sort meets what is asked of [sort.Slice] *)








(** ** The claims on concrete requests *)

Example checkIfModifiedSince_examples :
  let get t :=
    checkIfModifiedSince exampleParseTime
      {| Method := "GET"; Path := "/"; RawQuery := "";
         ReqHeader := {["If-Modified-Since" := [exampleDate]]} |} t in
  let post t :=
    checkIfModifiedSince exampleParseTime
      {| Method := "POST"; Path := "/"; RawQuery := "";
         ReqHeader := {["If-Modified-Since" := [exampleDate]]} |} t in
  get exampleTime = condFalse
  /\ get (time.Add exampleTime 999999999%Z) = condFalse
  /\ get (time.Add exampleTime time.Second) = condTrue
  /\ get unixEpochTime = condNone
  /\ post exampleTime = condNone
  /\ post (time.Add exampleTime time.Second) = condNone
  /\ checkIfModifiedSince exampleParseTime (request "GET" "/" "") exampleTime
     = condNone.
Proof. repeat split. Qed.

Lemma index_redirect_witness :
  let w1 := fst (exampleServe exampleFS ∅ (request "GET" "/a/index.html" "")) in
  let w2 := fst (exampleServe exampleFS ∅ (request "GET" "/a/index.html" "x=1")) in
  status w1 = Some StatusMovedPermanently
  /\ Get (header w1) "Location" = "./"
  /\ Get (header w2) "Location" = "./?x=1".
Proof.
  intros w1 w2.
  destruct (index_redirect exampleParseTime exampleFormat exampleServeContent
              (@insertionSort FileInfo) exampleFS ∅
              (request "GET" "/a/index.html" "") eq_refl)
    as (Hs & _ & Hl & _).
  destruct (index_redirect exampleParseTime exampleFormat exampleServeContent
              (@insertionSort FileInfo) exampleFS ∅
              (request "GET" "/a/index.html" "x=1") eq_refl)
    as (_ & _ & _ & Hq & _).
  split; [exact Hs|]. split; [apply Hl; reflexivity|].
  apply Hq. discriminate.
Defined.

Lemma index_redirect_before_open_witness :
  let out := exampleServe emptyFS ∅ (request "GET" "/no/such/dir/index.html" "") in
  opened (snd out) = [] /\ status (fst out) = Some StatusMovedPermanently.
Proof.
  intros out.
  destruct (index_redirect_before_open exampleParseTime exampleFormat
              exampleServeContent (@insertionSort FileInfo) emptyFS ∅
              (request "GET" "/no/such/dir/index.html" "") eq_refl)
    as (_ & Ho & Hs & _).
  split; [exact Ho|exact Hs].
Defined.





Lemma not_modified_response_witness :
  let w' := fst (exampleServe exampleFS presetHeader conditionalGet) in
  status w' = Some StatusNotModified
  /\ body w' = ""
  /\ header w' = <["Etag" := ["v1"]]> (<["X-Served-By" := ["midserve"]]> ∅).
Proof.
  intros w'.
  destruct (not_modified_response exampleParseTime exampleFormat
              exampleServeContent (@insertionSort FileInfo) exampleFS
              presetHeader conditionalGet
              (directory "docs" [info "sub" true; info "readme.txt" false])
              (info "docs" true)
              eq_refl eq_refl eq_refl eq_refl eq_refl eq_refl eq_refl)
    as (Hs & Hb & _).
  split; [exact Hs|]. split; [exact Hb|]. vm_compute. reflexivity.
Defined.

Lemma canonical_no_redirect_witness :
  notRedirected exampleServeContent ∅ (request "GET" "/docs/" "")
    (fst (exampleServe exampleFS ∅ (request "GET" "/docs/" ""))).
Proof.
  apply (canonical_no_redirect exampleParseTime exampleFormat exampleServeContent
           (@insertionSort FileInfo) exampleFS ∅ (request "GET" "/docs/" ""));
    [reflexivity|].
  intros f d Hf Hd. vm_compute in Hf. injection Hf as <-.
  vm_compute in Hd. injection Hd as <-. reflexivity.
Defined.

(** C9, as stated, fails in its second half: [/a/index.html] redirects to
    [./], which a client resolves to [/a/]; [a] is a regular file, so
    [/a/] redirects again, to [../a]. *)
Lemma one_hop_counterexample :
  let r1 := request "GET" "/a/index.html" "" in
  let w1 := fst (exampleServe exampleFS ∅ r1) in
  let p2 := resolvePath (urlPath r1) (Get (header w1) "Location") in
  let w2 := fst (exampleServe exampleFS ∅ (request "GET" p2 "")) in
  status w1 = Some StatusMovedPermanently
  /\ p2 = "/a/"
  /\ status w2 = Some StatusMovedPermanently
  /\ Get (header w2) "Location" = "../a".
Proof. vm_compute. repeat split. Qed.



(** The order of the listing is the order of bytes: upper case comes before
    lower case, and a name comes before its extensions. *)
Example lessName_examples :
  lessName (info "B" false) (info "a" false) = true
  /\ lessName (info "a" false) (info "B" false) = false
  /\ lessName (info "a" false) (info "ab" false) = true
  /\ lessName (info ".git" true) (info "a" false) = true
  /\ map Name (insertionSort lessName rootEntries)
     = [".git"; "a"; "a&<b>.txt"; "broken"; "docs"; "odd"; "secret"].
Proof. repeat split. Qed.

Example Clean_examples :
  map path.Clean ["/a/b/../c"; "/a//b/./"; "/../.."; "/.."; "//"; "/..a/.b./..."]
  = ["/a/c"; "/a/b"; "/"; "/"; "/"; "/..a/.b./..."]
  /\ map path.Clean [""; "a/../../b"; "abc/def/../.."] = ["."; "../b"; "."]
  /\ map path.Base ["/docs"; "/a/b/"; ""; "///"; "abc"] = ["docs"; "b"; "."; "/"; "abc"].
Proof. repeat split. Qed.

(** ** More of the handler, on concrete requests *)

Lemma file_slash_redirect_witness :
  let out := exampleServe exampleFS ∅ (request "GET" "/a/" "v=2") in
  status (fst out) = Some StatusMovedPermanently
  /\ Get (header (fst out)) "Location" = "../a?v=2"
  /\ opened (snd out) = ["/a"].
Proof.
  pose proof (file_slash_redirect exampleParseTime exampleFormat
                exampleServeContent (@insertionSort FileInfo) exampleFS ∅
                (request "GET" "/a/" "v=2") (regular "a") (info "a" false)
                eq_refl eq_refl eq_refl eq_refl eq_refl) as H.
  cbv zeta in H. destruct H as (Hs & _ & Hh & _ & Ho).
  cbv zeta. unfold exampleServe. rewrite Hs, Hh, Ho.
  vm_compute. repeat split.
Defined.


Lemma index_page_served_witness :
  let out := exampleServe siteFS ∅ (request "GET" "/site/" "") in
  body (fst out) = "content of index.html"
  /\ opened (snd out) = ["/site"; "/site/index.html"].
Proof.
  pose proof (index_page_served exampleParseTime exampleFormat
                exampleServeContent (@insertionSort FileInfo) siteFS
                (newResponse ∅) (request "GET" "/site/" "")
                (directory "site" [info "index.html" false; info "b" false])
                (regular "index.html") (info "site" true)
                (info "index.html" false)
                eq_refl eq_refl eq_refl eq_refl eq_refl eq_refl eq_refl eq_refl)
    as H.
  cbv zeta in H. destruct H as [Hw Ho].
  cbv zeta. unfold exampleServe. rewrite Hw, Ho.
  vm_compute. split; reflexivity.
Defined.

Lemma index_failure_ignored_witness :
  let w' := fst (exampleServe siteFS ∅ (request "GET" "/locked/" "")) in
  status w' <> Some StatusForbidden
  /\ status w' <> Some StatusNotFound.
Proof.
  pose proof (index_failure_ignored exampleParseTime exampleFormat
                exampleServeContent (@insertionSort FileInfo) siteFS ∅
                (request "GET" "/locked/" "")
                (directory "locked" [info "index.html" false; info "b" false])
                (info "locked" true) (errPermission "index.html")
                eq_refl eq_refl eq_refl eq_refl eq_refl (or_introl eq_refl))
    as H.
  cbv zeta in H. destruct H as (_ & _ & Hn & Hn').
  split; [exact Hn|exact Hn'].
Defined.

Lemma listing_last_modified_witness :
  let w1 := fst (exampleServe exampleFS ∅ (request "GET" "/docs/" "")) in
  let w2 := fst (exampleServe siteFS presetHeader (request "GET" "/old/" "")) in
  header w1
  = <["Content-Type" := ["text/html; charset=utf-8"]]>
      (<["Last-Modified" := ["another date"]]> ∅)
  /\ header w2
     = <["Content-Type" := ["text/html; charset=utf-8"]]> presetHeader.
Proof.
  intros w1 w2.
  pose proof (listing_last_modified exampleParseTime exampleFormat
                exampleServeContent (@insertionSort FileInfo) exampleFS ∅
                (request "GET" "/docs/" "")
                (directory "docs" [info "sub" true; info "readme.txt" false])
                (info "docs" true) eq_refl eq_refl eq_refl eq_refl eq_refl
                eq_refl ltac:(discriminate)) as [_ H1].
  pose proof (listing_last_modified exampleParseTime exampleFormat
                exampleServeContent (@insertionSort FileInfo) siteFS presetHeader
                (request "GET" "/old/" "")
                {| Stat := Ok {| Name := "old"; Size := 0;
                                 ModTime := unixEpochTime; IsDir := true |};
                   Readdir := Ok [] |}
                {| Name := "old"; Size := 0; ModTime := unixEpochTime;
                   IsDir := true |}
                eq_refl eq_refl eq_refl eq_refl eq_refl
                eq_refl ltac:(discriminate)) as [_ H2].
  split; [exact H1|exact H2].
Defined.

Lemma directory_always_listed_witness :
  let post :=
    {| Method := "POST"; Path := "/docs/"; RawQuery := "";
       ReqHeader := {["If-Modified-Since" := [exampleDate]]} |} in
  status (fst (exampleServe exampleFS ∅ post)) = Some StatusOK.
Proof.
  intros post.
  pose proof (directory_always_listed exampleParseTime exampleFormat
                exampleServeContent (@insertionSort FileInfo) exampleFS ∅ post
                (directory "docs" [info "sub" true; info "readme.txt" false])
                (info "docs" true) eq_refl eq_refl eq_refl eq_refl eq_refl
                eq_refl) as H.
  assert (Hm : Method post <> "GET" /\ Method post <> "HEAD")
    by (split; discriminate).
  specialize (H (or_introl Hm)). destruct H as [_ H].
  vm_compute in H. destruct H as [Hs _]. exact Hs.
Defined.

Lemma checkIfModifiedSince_same_second_witness :
  checkIfModifiedSince exampleParseTime conditionalGet
    (time.Add exampleTime 500%Z)
  = checkIfModifiedSince exampleParseTime conditionalGet
      (time.Add exampleTime 999999999%Z).
Proof.
  apply (checkIfModifiedSince_same_second exampleParseTime conditionalGet);
    vm_compute; reflexivity.
Defined.

Lemma directory_redirect_final_witness :
  let r' := request "GET" "/docs/" "x=1" in
  path.Clean "/docs/" = path.Clean "/docs"
  /\ notRedirected exampleServeContent ∅ r' (fst (exampleServe exampleFS ∅ r')).
Proof.
  pose proof (directory_redirect_final exampleParseTime exampleFormat
                exampleServeContent (@insertionSort FileInfo) exampleFS ∅
                (request "GET" "/docs" "x=1")
                (directory "docs" [info "sub" true; info "readme.txt" false])
                (info "docs" true) eq_refl eq_refl eq_refl eq_refl eq_refl)
    as H.
  cbv zeta in H. destruct H as (_ & Hc & Hn).
  split; [exact Hc|exact Hn].
Defined.

Lemma checkIfModifiedSince_earlier_witness :
  checkIfModifiedSince exampleParseTime conditionalGet
    (time.Add exampleTime (-86400000000000)%Z) = condFalse.
Proof.
  apply (checkIfModifiedSince_earlier exampleParseTime conditionalGet
           (time.Add exampleTime (-86400000000000)%Z) exampleTime);
    vm_compute; [discriminate|reflexivity|reflexivity].
Defined.

Lemma ServeHTTP_leading_slash_witness :
  exampleServe exampleFS ∅ (request "GET" "docs" "x=1")
  = exampleServe exampleFS ∅ (request "GET" "/docs" "x=1").
Proof.
  destruct (ServeHTTP_leading_slash exampleParseTime exampleFormat
              exampleServeContent (@insertionSort FileInfo) exampleFS
              (newResponse ∅) (request "GET" "docs" "x=1")) as [H _].
  exact (H eq_refl).
Defined.
